(** * sailfish/converter.py: coordinate and unit converters

    A shallow embedding of [CoordinateConverter] and [UnitConverter] from
    [sailfish/converter.py], and the properties of the two converters.

    Number model.  The module computes with Python numbers: [int] for
    lattice sizes, paddings, cuts and offsets, [float] for physical
    quantities, and true division everywhere ([from __future__ import
    division]).  Integers are [Z].  Floats are idealised as exact
    rationals in canonical form ([Qc]): every arithmetic operation is the
    exact one, so the rounding error of binary64 is outside the model,
    while the control flow, the indexing and the exceptions are those of
    the source.  Division raises [ZeroDivisionError] on a zero divisor, as
    Python's does for both [int] and [float].  Overflow and underflow of
    binary64 (and the [OverflowError] of [**]) are outside the model too.
    An equality between two computed floats is therefore proved as the
    exact identity that the code meets up to floating-point rounding;
    statements about integers, exceptions, comparisons and the order of
    evaluation do not depend on the idealisation. *)

From Stdlib Require Import ZArith QArith Qcanon Qround String Ascii Lia Lqa Field.
From stdpp Require Import base decidable option list sets numbers.

Local Open Scope Z_scope.
Local Open Scope Qc_scope.

(** ** Python values, exceptions and built-ins *)

Module Py.

(** The exceptions the module can raise. *)
Inductive exn : Set :=
| KeyError | IndexError | ValueError
| ZeroDivisionError | TypeError | AssertionError.

(** A computation returns a value or raises. *)
Inductive result (A : Type) : Type :=
| Ok (a : A)
| Raise (e : exn).
Arguments Ok {A} a.
Arguments Raise {A} e.

#[global] Instance exn_eq_dec : EqDecision exn.
Proof. solve_decision. Defined.

#[global] Instance result_eq_dec {A} `{EqDecision A} : EqDecision (result A).
Proof. solve_decision. Defined.

#[global] Instance result_ret : MRet result := @Ok.
#[global] Instance result_bind : MBind result := fun A B f m =>
  match m with
  | Ok a => f a
  | Raise e => Raise e
  end.

(** Interpreter line: the rounding of [round] on a tie depends on it. *)
Inductive version : Set := Py2 | Py3.

(** [int -> float] coercion of mixed arithmetic. *)
Definition of_int (n : Z) : Qc := Qc_of_Z n.

(** [a / b] under [from __future__ import division]. *)
Definition div (a b : Qc) : result Qc :=
  if decide (b = 0) then Raise ZeroDivisionError else Ok (a / b).

(** A possibly-[None] attribute used as an operand: arithmetic on [None]
    raises [TypeError]. *)
Definition operand (v : option Qc) : result Qc :=
  match v with
  | Some x => Ok x
  | None => Raise TypeError
  end.

(** [d[key]] for a key that may be absent from the dictionary. *)
Definition lookup_key {A} (v : option A) : result A :=
  match v with
  | Some x => Ok x
  | None => Raise KeyError
  end.

(** Position denoted by the index [i] in a sequence of length [n]:
    negative indices count from the end. *)
Definition norm_index (n : nat) (i : Z) : result nat :=
  let len := Z.of_nat n in
  if bool_decide (0 <= i < len)%Z then Ok (Z.to_nat i)
  else if bool_decide (- len <= i < 0)%Z then Ok (Z.to_nat (len + i))
  else Raise IndexError.

(** [l[i]] *)
Definition getitem {A} (l : list A) (i : Z) : result A :=
  k ← norm_index (length l) i;
  match l !! k with
  | Some x => Ok x
  | None => Raise IndexError
  end.

(** [l[i] = x] *)
Definition setitem {A} (l : list A) (i : Z) (x : A) : result (list A) :=
  k ← norm_index (length l) i;
  Ok (<[k := x]> l).

(** [s.index(c)] on a string. *)
Fixpoint str_index (c : ascii) (s : string) : result Z :=
  match s with
  | EmptyString => Raise ValueError
  | String a s' =>
      if Ascii.eqb a c then Ok 0%Z
      else k ← str_index c s'; Ok (k + 1)%Z
  end.

(** [l.index(v)] on a list of integers. *)
Fixpoint list_index (v : Z) (l : list Z) : result Z :=
  match l with
  | [] => Raise ValueError
  | a :: l' =>
      if bool_decide (a = v) then Ok 0%Z
      else k ← list_index v l'; Ok (k + 1)%Z
  end.

(** [for i, x in enumerate(l): s = body(i, x, s)], counting from [i]. *)
Fixpoint for_enumerate {A S} (body : Z -> A -> S -> result S)
    (i : Z) (l : list A) (s : S) : result S :=
  match l with
  | [] => Ok s
  | x :: l' => s' ← body i x s; for_enumerate body (i + 1)%Z l' s'
  end.

(** [int(round(x))].  Python 2 rounds a tie away from zero (and [int]
    then drops the [.0]); Python 3 rounds a tie to the even neighbour. *)
Definition half : Qc := Q2Qc (1 # 2).

Definition int_round (v : version) (x : Qc) : Z :=
  match v with
  | Py2 =>
      if decide (0 <= x) then Qfloor (x + half) else Qceiling (x - half)
  | Py3 =>
      let f := Qfloor x in
      let r := x - of_int f in
      if decide (r < half) then f
      else if decide (half < r) then (f + 1)%Z
      else if Z.even f then f else (f + 1)%Z
  end.

(** A method of an object of class [S]: it may update the attributes of
    [self] and then return or raise.  Updates made before an exception
    stay in the object. *)
Definition method (S A : Type) : Type := S -> S * result A.

#[global] Instance method_ret {S} : MRet (method S) := fun A a self =>
  (self, Ok a).
#[global] Instance method_bind {S} : MBind (method S) := fun A B f m self =>
  match m self with
  | (self', Ok a) => f a self'
  | (self', Raise e) => (self', Raise e)
  end.

(** The object itself, to read its attributes. *)
Definition this_object {S} : method S S := fun self => (self, Ok self).
(** [self.attr = value], as an update of the record. *)
Definition setattr {S} (update : S -> S) : method S unit := fun self =>
  (update self, Ok ()).
(** An expression evaluated inside a method. *)
Definition eval {S A} (r : result A) : method S A := fun self => (self, r).
(** [assert b] *)
Definition assert {S} (b : bool) : method S unit :=
  eval (if b then Ok () else Raise AssertionError).

End Py.

Import Py.

(** ** CoordinateConverter *)

Module CoordinateConverter.

(** The configuration dictionary.  [axes], [bounding_box] and [size] are
    read unconditionally; [padding] and [cuts] are [None] when the key
    is absent from the dictionary. *)
Record config : Type := {
  cfg_axes : string;
  cfg_bounding_box : list (Qc * Qc);
  cfg_size : list Z;
  cfg_padding : option (list Z);
  cfg_cuts : option (list (Z * Z))
}.

Record t : Type := {
  axes : list Z;
  dx : list Qc;
  offset : list Z;
  phys_min_x : list Qc
}.

#[global] Instance t_eq_dec : EqDecision t.
Proof. solve_decision. Defined.

(** [[ax.index('x'), ax.index('y'), ax.index('z')]] *)
Definition parse_axes (ax : string) : result (list Z) :=
  ix ← str_index "x"%char ax;
  iy ← str_index "y"%char ax;
  iz ← str_index "z"%char ax;
  Ok [ix; iy; iz].

Definition append_axis (self : t) (off : Z) (d m : Qc) : t :=
  {| axes := axes self;
     dx := dx self ++ [d];
     offset := offset self ++ [off];
     phys_min_x := phys_min_x self ++ [m] |}.

(** Body of the loop of [__init__] for the natural axis [i]. *)
Definition init_axis (cfg : config) (i : Z) (_ : Qc * Qc) (self : t)
    : result t :=
  padding ← lookup_key (cfg_padding cfg);
  pad_fwd ← getitem padding (2 * i);
  let offset := (- pad_fwd)%Z in
  let lb_i := (2 - i)%Z in
  size ← getitem (cfg_size cfg) lb_i;
  pad_fwd' ← getitem padding (2 * i);
  let size := (size - pad_fwd')%Z in
  pad_back ← getitem padding (2 * i + 1);
  let size := (size - pad_back)%Z in
  phys_size ← getitem (cfg_bounding_box cfg) i;
  '(size, offset) ←
    match cfg_cuts cfg with
    | Some cuts =>
        cut ← getitem cuts i;
        Ok ((size + (cut.1 + cut.2))%Z, (offset + cut.1)%Z)
    | None => Ok (size, offset)
    end;
  d ← div (phys_size.2 - phys_size.1) (of_int size);
  Ok (append_axis self offset d phys_size.1).

Definition __init__ (cfg : config) : result t :=
  ax ← parse_axes (cfg_axes cfg);
  let self :=
    {| axes := ax; dx := []; offset := []; phys_min_x := [] |} in
  for_enumerate (init_axis cfg) 0 (cfg_bounding_box cfg) self.

(** Body of the loop of [to_lb]: the right-hand side is evaluated before
    the subscript of the assignment target. *)
Definition to_lb_axis (self : t) (i : Z) (phys_x : Qc) (lb_pos : list Qc)
    : result (list Qc) :=
  m ← getitem (phys_min_x self) i;
  d ← getitem (dx self) i;
  q ← div (phys_x - m) d;
  off ← getitem (offset self) i;
  a ← getitem (axes self) i;
  setitem lb_pos (2 - a) (q - of_int off).

(** [to_lb(phys_pos, round_)]: integers when [round_], floats otherwise. *)
Definition to_lb (v : version) (self : t) (phys_pos : list Qc)
    (round_ : bool) : result (list (if round_ then Z else Qc)) :=
  lb_pos ← for_enumerate (to_lb_axis self) 0 phys_pos [0; 0; 0];
  match round_ as b return result (list (if b then Z else Qc)) with
  | true => Ok (int_round v <$> lb_pos)
  | false => Ok lb_pos
  end.

(** Body of the loop of [from_lb]. *)
Definition from_lb_axis (self : t) (i : Z) (lb_x : Qc)
    (phys_pos : list Qc) : result (list Qc) :=
  i ← list_index (2 - i) (axes self);
  d ← getitem (dx self) i;
  off ← getitem (offset self) i;
  m ← getitem (phys_min_x self) i;
  setitem phys_pos i (d * (lb_x + of_int off) + m).

Definition from_lb (self : t) (lb_pos : list Qc) : result (list Qc) :=
  for_enumerate (from_lb_axis self) 0 lb_pos [0; 0; 0].

(** The six strings that permute ['xyz']. *)
Definition axes_permutations : list string :=
  ["xyz"; "xzy"; "yxz"; "yzx"; "zxy"; "zyx"]%string.

(** [axes] is a permutation of the string ['xyz']. *)
Definition is_axes_permutation (ax : string) : Prop :=
  list_ascii_of_string ax ≡ₚ ["x"; "y"; "z"]%char.

(** [cuts] as the list of its three pairs. *)
Definition cuts_list (cuts : (Z * Z) * (Z * Z) * (Z * Z)) : list (Z * Z) :=
  let '(cut_x, cut_y, cut_z) := cuts in [cut_x; cut_y; cut_z].

(** The cut terms, zero when [cuts] is absent. *)
Definition cuts_or_zero (cuts : option ((Z * Z) * (Z * Z) * (Z * Z)))
    : (Z * Z) * (Z * Z) * (Z * Z) :=
  default ((0, 0), (0, 0), (0, 0))%Z cuts.

(** [phys_pos] lies in the bounding box, axis by axis. *)
Definition inside_bounding_box (cfg : config) (phys_pos : list Qc) : Prop :=
  Forall2 (fun b x => b.1 <= x /\ x <= b.2) (cfg_bounding_box cfg) phys_pos.


(** [from_lb(to_lb(phys_pos, round_=False)) == phys_pos] *)
Definition round_trip_phys (v : version) (self : t) (phys_pos : list Qc)
    : Prop :=
  exists lb_pos,
    to_lb v self phys_pos false = Ok lb_pos /\
    from_lb self lb_pos = Ok phys_pos.

(** [to_lb(from_lb(lb_pos), round_=True) == lb_pos] *)
Definition round_trip_lb (v : version) (self : t) (lb_pos : list Z) : Prop :=
  exists phys_pos,
    from_lb self (of_int <$> lb_pos) = Ok phys_pos /\
    to_lb v self phys_pos true = Ok lb_pos.

(** [to_lb(from_lb(lb_pos), round_=False) == lb_pos] *)
Definition round_trip_lb_exact (v : version) (self : t) (lb_pos : list Qc)
    : Prop :=
  exists phys_pos,
    from_lb self lb_pos = Ok phys_pos /\
    to_lb v self phys_pos false = Ok lb_pos.

End CoordinateConverter.

(** ** UnitConverter *)

Module UnitConverter.

(** The attributes of a converter; [None] is Python's [None]. *)
Record t : Type := {
  _phys_visc : option Qc;
  _phys_len : option Qc;
  _phys_vel : option Qc;
  _phys_freq : option Qc;
  _lb_visc : option Qc;
  _lb_len : option Qc;
  _lb_vel : option Qc
}.

#[global] Instance t_eq_dec : EqDecision t.
Proof. solve_decision. Defined.

Definition with_phys_visc (v : option Qc) (self : t) : t :=
  {| _phys_visc := v; _phys_len := _phys_len self;
     _phys_vel := _phys_vel self; _phys_freq := _phys_freq self;
     _lb_visc := _lb_visc self; _lb_len := _lb_len self;
     _lb_vel := _lb_vel self |}.

Definition with_phys_len (v : option Qc) (self : t) : t :=
  {| _phys_visc := _phys_visc self; _phys_len := v;
     _phys_vel := _phys_vel self; _phys_freq := _phys_freq self;
     _lb_visc := _lb_visc self; _lb_len := _lb_len self;
     _lb_vel := _lb_vel self |}.

Definition with_phys_vel (v : option Qc) (self : t) : t :=
  {| _phys_visc := _phys_visc self; _phys_len := _phys_len self;
     _phys_vel := v; _phys_freq := _phys_freq self;
     _lb_visc := _lb_visc self; _lb_len := _lb_len self;
     _lb_vel := _lb_vel self |}.

Definition with_lb_visc (v : option Qc) (self : t) : t :=
  {| _phys_visc := _phys_visc self; _phys_len := _phys_len self;
     _phys_vel := _phys_vel self; _phys_freq := _phys_freq self;
     _lb_visc := v; _lb_len := _lb_len self; _lb_vel := _lb_vel self |}.

Definition with_lb_len (v : option Qc) (self : t) : t :=
  {| _phys_visc := _phys_visc self; _phys_len := _phys_len self;
     _phys_vel := _phys_vel self; _phys_freq := _phys_freq self;
     _lb_visc := _lb_visc self; _lb_len := v; _lb_vel := _lb_vel self |}.

Definition with_lb_vel (v : option Qc) (self : t) : t :=
  {| _phys_visc := _phys_visc self; _phys_len := _phys_len self;
     _phys_vel := _phys_vel self; _phys_freq := _phys_freq self;
     _lb_visc := _lb_visc self; _lb_len := _lb_len self; _lb_vel := v |}.

(** [UnitConverter(visc, length, velocity, Re, freq)] *)
Definition __init__ (visc length velocity Re freq : option Qc)
    : result t :=
  let self :=
    {| _phys_visc := visc; _phys_len := length; _phys_vel := velocity;
       _phys_freq := freq;
       _lb_visc := None; _lb_len := None; _lb_vel := None |} in
  match Re with
  | Some Re =>
      match visc, length, velocity with
      | None, _, _ =>
          l ← operand length;
          u ← operand velocity;
          nu ← div (l * u) Re;
          Ok (with_phys_visc (Some nu) self)
      | Some visc, None, _ =>
          u ← operand velocity;
          l ← div (Re * visc) u;
          Ok (with_phys_len (Some l) self)
      | Some visc, Some length, None =>
          u ← div (Re * visc) length;
          Ok (with_phys_vel (Some u) self)
      | Some _, Some _, Some _ => Ok self
      end
  | None => Ok self
  end.

(** The [Re] property. *)
Definition Re (self : t) : result Qc :=
  l ← operand (_phys_len self);
  u ← operand (_phys_vel self);
  nu ← operand (_phys_visc self);
  div (l * u) nu.

(** The [Re_lb] property. *)
Definition Re_lb (self : t) : result Qc :=
  l ← operand (_lb_len self);
  u ← operand (_lb_vel self);
  nu ← operand (_lb_visc self);
  div (l * u) nu.

(** The stability bound [1.0/6.0] on the lattice viscosity. *)
Definition max_lb_visc : Qc := Q2Qc (1 # 6).

Definition _update_missing_parameters : method t unit :=
  self ← this_object;
  match _lb_visc self, _lb_len self, _lb_vel self with
  | None, Some len, Some vel =>
      Re ← eval (Re self);
      visc ← eval (div (len * vel) Re);
      setattr (with_lb_visc (Some visc));;
      assert (bool_decide (visc <= max_lb_visc))
  | Some visc, None, Some vel =>
      Re ← eval (Re self);
      len ← eval (div (Re * visc) vel);
      setattr (with_lb_len (Some len))
  | Some visc, Some len, None =>
      Re ← eval (Re self);
      vel ← eval (div (Re * visc) len);
      setattr (with_lb_vel (Some vel))
  | _, _, _ => mret ()
  end.

(** [if arg is not None: self.attr = arg] *)
Definition set_if_given (arg : option Qc)
    (update : option Qc -> t -> t) : method t unit :=
  match arg with
  | Some _ => setattr (update arg)
  | None => mret ()
  end.

Definition set_lb (visc length velocity : option Qc) : method t unit :=
  set_if_given visc with_lb_visc;;
  set_if_given length with_lb_len;;
  set_if_given velocity with_lb_vel;;
  _update_missing_parameters.

Definition visc_lb (self : t) : option Qc := _lb_visc self.
Definition velocity_lb (self : t) : option Qc := _lb_vel self.
Definition len_lb (self : t) : option Qc := _lb_len self.

(** The [dx] property. *)
Definition dx (self : t) : result Qc :=
  match _lb_len self with
  | None => Ok 0
  | Some lb_len =>
      len ← operand (_phys_len self);
      div len lb_len
  end.

(** The [dt] property: the quotient is evaluated before [self.dx]. *)
Definition dt (self : t) : result Qc :=
  match _lb_visc self with
  | None => Ok 0
  | Some lb_visc =>
      visc ← operand (_phys_visc self);
      r ← div lb_visc visc;
      dx ← dx self;
      Ok (r * dx ^ 2)
  end.

(** The [freq_lb] property. *)
Definition freq_lb (self : t) : result Qc :=
  match _phys_freq self with
  | None => Ok 1
  | Some freq => dt ← dt self; Ok (freq * dt)
  end.

(** The attributes after the three conditional assignments that open
    [set_lb]: an argument that is not [None] replaces the attribute. *)
Definition assigned (visc length velocity : option Qc) (self : t) : t :=
  {| _phys_visc := _phys_visc self; _phys_len := _phys_len self;
     _phys_vel := _phys_vel self; _phys_freq := _phys_freq self;
     _lb_visc := from_option Some (_lb_visc self) visc;
     _lb_len := from_option Some (_lb_len self) length;
     _lb_vel := from_option Some (_lb_vel self) velocity |}.

(** How many of the three lattice attributes are set. *)
Definition lb_set_count (self : t) : nat :=
  length (omap id [_lb_visc self; _lb_len self; _lb_vel self]).

End UnitConverter.

Module UC := UnitConverter.

Module CC := CoordinateConverter.

(** ** The scenarios used below *)

(** [size=[12,10,8]], no padding, no cuts, box [[(0,1),(0,2),(0,3)]]. *)
Definition example_config : CC.config :=
  {| CC.cfg_axes := "xyz";
     CC.cfg_bounding_box := [(0, 1); (0, of_int 2); (0, of_int 3)];
     CC.cfg_size := [12; 10; 8]%Z;
     CC.cfg_padding := Some [0; 0; 0; 0; 0; 0]%Z;
     CC.cfg_cuts := None |}.

Definition example_converter : CC.t :=
  {| CC.axes := [0; 1; 2]%Z;
     CC.dx := [Q2Qc 0.125; Q2Qc 0.2; Q2Qc 0.25];
     CC.offset := [0; 0; 0]%Z;
     CC.phys_min_x := [0; 0; 0] |}.

(** The same without the [padding] key. *)
Definition unpadded_config : CC.config :=
  {| CC.cfg_axes := "xyz";
     CC.cfg_bounding_box := [(0, 1); (0, of_int 2); (0, of_int 3)];
     CC.cfg_size := [12; 10; 8]%Z;
     CC.cfg_padding := None;
     CC.cfg_cuts := None |}.

(** A box of no extent along x, as for a planar geometry. *)
Definition flat_config : CC.config :=
  {| CC.cfg_axes := "xyz";
     CC.cfg_bounding_box := [(0, 0); (0, of_int 2); (0, of_int 3)];
     CC.cfg_size := [12; 10; 8]%Z;
     CC.cfg_padding := Some [0; 0; 0; 0; 0; 0]%Z;
     CC.cfg_cuts := None |}.

Definition flat_converter : CC.t :=
  {| CC.axes := [0; 1; 2]%Z;
     CC.dx := [0; Q2Qc 0.2; Q2Qc 0.25];
     CC.offset := [0; 0; 0]%Z;
     CC.phys_min_x := [0; 0; 0] |}.

(** A configuration with padding, cuts and shuffled axes. *)
Definition shuffled_config : CC.config :=
  {| CC.cfg_axes := "zxy";
     CC.cfg_bounding_box :=
       [(- (1), 1); (0, of_int 2); (of_int 3, of_int 7)];
     CC.cfg_size := [12; 10; 8]%Z;
     CC.cfg_padding := Some [1; 1; 2; 0; 0; 3]%Z;
     CC.cfg_cuts := Some [(1, 0); (0, 2); (1, 1)]%Z |}.

(** [UnitConverter(visc=1, length=1, velocity=1)] *)
Definition unit_converter : UC.t :=
  {| UC._phys_visc := Some 1; UC._phys_len := Some 1;
     UC._phys_vel := Some 1; UC._phys_freq := None;
     UC._lb_visc := None; UC._lb_len := None; UC._lb_vel := None |}.

(** [UnitConverter(length=1, velocity=1)]: no viscosity, no [Re]. *)
Definition inviscid_converter : UC.t :=
  {| UC._phys_visc := None; UC._phys_len := Some 1;
     UC._phys_vel := Some 1; UC._phys_freq := None;
     UC._lb_visc := None; UC._lb_len := None; UC._lb_vel := None |}.

(** [UnitConverter(visc=2, length=3, velocity=4)] *)
Definition pipe_converter : UC.t :=
  {| UC._phys_visc := Some (of_int 2); UC._phys_len := Some (of_int 3);
     UC._phys_vel := Some (of_int 4); UC._phys_freq := None;
     UC._lb_visc := None; UC._lb_len := None; UC._lb_vel := None |}.

Definition shuffled_converter : CC.t :=
  {| CC.axes := [1; 2; 0]%Z;
     CC.dx := [Q2Qc (2 # 7); Q2Qc (1 # 5); Q2Qc (4 # 11)];
     CC.offset := [0; -2; 1]%Z;
     CC.phys_min_x := [- (1); 0; of_int 3] |}.

(** A lattice two nodes wide along x, both of them padding. *)
Definition padded_out_config : CC.config :=
  {| CC.cfg_axes := "xyz";
     CC.cfg_bounding_box := [(0, 1); (0, 1); (0, 1)];
     CC.cfg_size := [8; 8; 2]%Z;
     CC.cfg_padding := Some [1; 1; 0; 0; 0; 0]%Z;
     CC.cfg_cuts := None |}.

(** The example configuration with its cuts spelled out as zero. *)
Definition zero_cuts_config : CC.config :=
  {| CC.cfg_axes := "xyz";
     CC.cfg_bounding_box := [(0, 1); (0, of_int 2); (0, of_int 3)];
     CC.cfg_size := [12; 10; 8]%Z;
     CC.cfg_padding := Some [0; 0; 0; 0; 0; 0]%Z;
     CC.cfg_cuts := Some [(0, 0); (0, 0); (0, 0)]%Z |}.

(** ** Womersley numbers *)

(** [math.pi]: the double nearest to pi, as the rational it is. *)
Definition math_pi : Qc := Q2Qc (884279719003555 # 281474976710656).

(** The [Womersley] and [Womersley_lb] properties.  [math.sqrt] is no
    rational function: it is a parameter, free to raise as Python's does
    on a negative argument. *)
Section Womersley.
Variable math_sqrt : Qc -> result Qc.

Definition Womersley (self : UC.t) : result Qc :=
  freq ← operand (UC._phys_freq self);
  len ← operand (UC._phys_len self);
  visc ← operand (UC._phys_visc self);
  x ← div (of_int 2 * math_pi * freq * len ^ 2) visc;
  math_sqrt x.

Definition Womersley_lb (self : UC.t) : result Qc :=
  freq ← UC.freq_lb self;
  len ← operand (UC.len_lb self);
  visc ← operand (UC.visc_lb self);
  x ← div (of_int 2 * math_pi * freq * len ^ 2) visc;
  math_sqrt x.
End Womersley.

(** A pulsatile flow: [UnitConverter(visc=2, length=3, velocity=4, freq=5)]
    after [set_lb(visc=0.1, length=10)]. *)
Definition pulsatile_converter : UC.t :=
  {| UC._phys_visc := Some (of_int 2); UC._phys_len := Some (of_int 3);
     UC._phys_vel := Some (of_int 4); UC._phys_freq := Some (of_int 5);
     UC._lb_visc := Some (Q2Qc 0.1); UC._lb_len := Some (of_int 10);
     UC._lb_vel := Some (Q2Qc 0.06) |}.

(** * Properties *)

(** ** Built-ins *)

Section Builtins.
Context {A : Type}.
Implicit Types (l : list A) (k : nat) (x : A).

Lemma norm_index_nat (n k : nat) :
  (k < n)%nat → norm_index n (Z.of_nat k) = Ok k.
Proof.
  intros Hk. unfold norm_index. cbn zeta.
  rewrite bool_decide_eq_true_2 by lia. by rewrite Nat2Z.id.
Qed.

Lemma getitem_lookup l k x :
  l !! k = Some x → getitem l (Z.of_nat k) = Ok x.
Proof.
  intros Hx. unfold getitem.
  rewrite norm_index_nat by (by eapply lookup_lt_Some).
  cbn. by rewrite Hx.
Qed.

Lemma setitem_insert l k x :
  (k < length l)%nat → setitem l (Z.of_nat k) x = Ok (<[k := x]> l).
Proof. intros Hk. unfold setitem. by rewrite norm_index_nat. Qed.
End Builtins.

Lemma div_nonzero a b : b ≠ 0 → div a b = Ok (a / b).
Proof.
  intros Hb. unfold div. by destruct (decide (b = 0)).
Qed.

Lemma div_zero a : div a 0 = Raise ZeroDivisionError.
Proof. reflexivity. Qed.

Lemma div_Ok a b r : div a b = Ok r → b ≠ 0 ∧ r = a / b.
Proof.
  unfold div. destruct (decide (b = 0)); [discriminate |].
  intros [= <-]. done.
Qed.

Lemma of_int_nonzero n : n ≠ 0%Z → of_int n ≠ 0.
Proof.
  intros Hn H0. apply Hn, Z2Qc_inj. by rewrite Z2Qc_inj_0.
Qed.

Lemma of_int_zero n : of_int n = 0 → n = 0%Z.
Proof. intros H0. apply Z2Qc_inj. by rewrite Z2Qc_inj_0. Qed.

(** Closed goals over [Qc] are decided by evaluation. *)
Ltac by_evaluation := apply (bool_decide_unpack _); vm_compute; reflexivity.

(** One step of a loop over explicit lists: a subscript at a closed index
    is replaced by the element. *)
Ltac eval_item :=
  match goal with
  | |- context [getitem ?l ?i] =>
      let k := eval vm_compute in (Z.to_nat i) in
      change (getitem l i) with (getitem l (Z.of_nat k));
      rewrite (getitem_lookup l k _ eq_refl)
  | |- context [setitem ?l ?i ?x] =>
      let k := eval vm_compute in (Z.to_nat i) in
      change (setitem l i x) with (setitem l (Z.of_nat k) x);
      rewrite (setitem_insert l k x) by (cbn; lia)
  | |- context [list_index ?v ?l] =>
      let r := eval vm_compute in (list_index v l) in
      change (list_index v l) with r
  end.

Ltac run_loop :=
  repeat (cbn [mbind result_bind for_enumerate fst snd insert list_insert]
          || eval_item).

(** [int(round(x))] is the identity on integers, on either interpreter. *)
Lemma int_round_of_int v n : int_round v (of_int n) = n.
Proof.
  assert (Hfl : ∀ x : Q, (x == inject_Z n + (1 # 2))%Q → Qfloor x = n).
  { intros x ->. unfold Qfloor, Qplus, inject_Z; cbn.
    rewrite Z.mul_1_r. change (Z.pos (1 * 2)) with 2%Z.
    symmetry. apply Z.div_unique with 1%Z; lia. }
  assert (Hce : ∀ x : Q, (x == inject_Z n - (1 # 2))%Q → Qceiling x = n).
  { intros x ->. unfold Qceiling, Qfloor, Qminus, Qopp, Qplus, inject_Z; cbn.
    rewrite Z.mul_1_r. change (Z.pos (1 * 2)) with 2%Z.
    match goal with
    | |- (- (?a `div` 2))%Z = n =>
        assert (a `div` 2 = - n)%Z as ->
          by (symmetry; apply Z.div_unique with 1%Z; lia)
    end. lia. }
  destruct v; unfold int_round.
  - destruct (decide (0 <= of_int n)).
    + apply Hfl. reflexivity.
    + apply Hce. reflexivity.
  - assert (Qfloor (of_int n) = n) as -> by apply Qfloor_Z.
    replace (of_int n - of_int n) with 0 by ring.
    by destruct (decide (0 < half)).
Qed.

(** ** Rounding *)

(** The value of a canonical rational expression, in [Q]. *)
Lemma this_minus (x y : Qc) : (this (x - y) == this x - this y)%Q.
Proof.
  unfold Qcminus, Qcplus, Qcopp, Q2Qc; cbn.
  by rewrite !Qred_correct.
Qed.

Lemma this_plus (x y : Qc) : (this (x + y) == this x + this y)%Q.
Proof. unfold Qcplus, Q2Qc; cbn. by rewrite Qred_correct. Qed.

Lemma this_of_int n : this (of_int n) = inject_Z n.
Proof. reflexivity. Qed.

Lemma this_half : this half = (1 # 2)%Q.
Proof. reflexivity. Qed.

(** [int(round(x))] is an integer nearest to [x]. *)
Lemma int_round_nearest_Q v (x : Qc) :
  (this x - (1 # 2) <= inject_Z (int_round v x) /\
   inject_Z (int_round v x) <= this x + (1 # 2))%Q.
Proof.
  pose proof (Qfloor_le x) as Hfl. pose proof (Qlt_floor x) as Hfu.
  destruct v; unfold int_round.
  - destruct (decide (0 <= x)) as [_ | _].
    + pose proof (Qfloor_le (x + half)) as Hl.
      pose proof (Qlt_floor (x + half)) as Hu.
      rewrite inject_Z_plus in Hu. rewrite this_half in *.
      change (inject_Z 1) with 1%Q in Hu. split; lra.
    + pose proof (Qle_ceiling (x - half)) as Hl.
      pose proof (Qceiling_lt (x - half)) as Hu.
      unfold Z.sub in Hu. rewrite inject_Z_plus, inject_Z_opp in Hu.
      rewrite this_half in *. change (inject_Z 1) with 1%Q in Hu.
      split; lra.
  - cbn zeta. rewrite inject_Z_plus in Hfu.
    change (inject_Z 1) with 1%Q in Hfu.
    destruct (decide (x - of_int (Qfloor x) < half)) as [Hlt | Hge].
    { unfold Qclt in Hlt. rewrite this_minus, this_of_int, this_half in Hlt.
      split; lra. }
    destruct (decide (half < x - of_int (Qfloor x))) as [Hgt | Hle].
    { unfold Qclt in Hgt. rewrite this_minus, this_of_int, this_half in Hgt.
      rewrite inject_Z_plus. change (inject_Z 1) with 1%Q. split; lra. }
    apply Qcnot_lt_le in Hge, Hle. unfold Qcle in Hge, Hle.
    rewrite this_minus, this_of_int, this_half in Hge, Hle.
    destruct (Z.even (Qfloor x)); rewrite ?inject_Z_plus;
      change (inject_Z 1) with 1%Q; split; lra.
Qed.

Lemma int_round_nearest v (x : Qc) :
  x - half <= of_int (int_round v x) ∧ of_int (int_round v x) <= x + half.
Proof.
  destruct (int_round_nearest_Q v x) as [Hl Hu].
  unfold Qcle. rewrite this_minus, this_plus, this_of_int, this_half.
  by split.
Qed.

(** The two interpreters round alike except on a tie. *)
Lemma int_round_versions (x : Qc) :
  x - of_int (Qfloor x) ≠ half → int_round Py2 x = int_round Py3 x.
Proof.
  intros Htie.
  pose proof (Qfloor_le x) as Hfl. pose proof (Qlt_floor x) as Hfu.
  rewrite inject_Z_plus in Hfu. change (inject_Z 1) with 1%Q in Hfu.
  assert (¬ (this x - inject_Z (Qfloor x) == 1 # 2)%Q) as Htie'.
  { intros Heq. apply Htie, Qc_is_canon.
    by rewrite this_minus, this_of_int, this_half. }
  pose proof (int_round_nearest_Q Py2 x) as [Hl2 Hu2].
  pose proof (int_round_nearest_Q Py3 x) as [Hl3 Hu3].
  assert (int_round Py3 x = Qfloor x ∨ int_round Py3 x = (Qfloor x + 1)%Z)
    as H3.
  { unfold int_round. cbn zeta. repeat case_match; auto. }
  assert (Qfloor x <= int_round Py2 x <= Qfloor x + 1)%Z as H2.
  { assert (Qfloor x - 1 < int_round Py2 x < Qfloor x + 2)%Z; [| lia].
    rewrite !Zlt_Qlt. unfold Z.sub. rewrite !inject_Z_plus, inject_Z_opp.
    change (inject_Z 2) with 2%Q. change (inject_Z 1) with 1%Q.
    split; lra. }
  destruct (decide (int_round Py2 x = int_round Py3 x)) as [| Hne]; [done |].
  exfalso. apply Htie'.
  assert (int_round Py2 x = Qfloor x ∧ int_round Py3 x = (Qfloor x + 1)%Z ∨
          int_round Py2 x = (Qfloor x + 1)%Z ∧ int_round Py3 x = Qfloor x)
    as [[E2 E3] | [E2 E3]] by lia.
  - rewrite E2 in Hl2. rewrite E3, inject_Z_plus in Hu3.
    change (inject_Z 1) with 1%Q in Hu3. lra.
  - rewrite E3 in Hl3. rewrite E2, inject_Z_plus in Hu2.
    change (inject_Z 1) with 1%Q in Hu2. lra.
Qed.


(** ** CoordinateConverter *)

Example init_example : CC.__init__ example_config = Ok example_converter.
Proof. by_evaluation. Qed.

Example init_shuffled : CC.__init__ shuffled_config = Ok shuffled_converter.
Proof. by_evaluation. Qed.

Example init_flat : CC.__init__ flat_config = Ok flat_converter.
Proof. by_evaluation. Qed.

(** C1.  For [axes="xyz"], [size=[12,10,8]], zero padding, no cuts and the
    box [[(0,1),(0,2),(0,3)]], construction gives the cell sizes
    [dx = [0.125, 0.2, 0.25]] for (x, y, z), and [to_lb([0.5, 1.0, 1.5])]
    with rounding returns the lattice-order coordinates [[6, 5, 4]], on
    either interpreter. *)
Theorem C1_example_scenario (v : version) :
  CC.__init__ example_config = Ok example_converter ∧
  CC.dx example_converter = [Q2Qc 0.125; Q2Qc 0.2; Q2Qc 0.25] ∧
  CC.to_lb v example_converter [Q2Qc 0.5; Q2Qc 1.0; Q2Qc 1.5] true
    = Ok [6; 5; 4]%Z.
Proof.
  split; [by_evaluation |]. split; [reflexivity |].
  destruct v; vm_compute; reflexivity.
Qed.

(** The six orders of three things. *)
Lemma Permutation_3 {A} (a b c : A) (l : list A) :
  l ≡ₚ [a; b; c] →
  l ∈ [[a; b; c]; [a; c; b]; [b; a; c]; [b; c; a]; [c; a; b]; [c; b; a]].
Proof.
  intros Hl. pose proof (Permutation_length Hl) as Hlen.
  destruct l as [| x [| y [| z [| ? ?]]]]; try discriminate. clear Hlen.
  assert (x ∈ [a; b; c]) as Hx by (rewrite <- Hl; left).
  assert (∀ u w, [y; z] ≡ₚ [u; w] → y = u ∧ z = w ∨ y = w ∧ z = u) as Hyz
    by (intros u w; apply Permutation_length_2).
  rewrite !elem_of_cons, elem_of_nil in Hx.
  destruct Hx as [-> | [-> | [-> | []]]].
  - apply Permutation_cons_inv, Hyz in Hl.
    destruct Hl as [[Hy Hz] | [Hy Hz]]; subst y z;
      repeat first [by left | right].
  - rewrite <- (Permutation_swap a b [c]) in Hl.
    apply Permutation_cons_inv, Hyz in Hl.
    destruct Hl as [[Hy Hz] | [Hy Hz]]; subst y z;
      repeat first [by left | right].
  - assert ([a; b; c] ≡ₚ c :: [a; b]) as Hrot
      by (by rewrite (Permutation_cons_append [a; b] c)).
    rewrite Hrot in Hl.
    apply Permutation_cons_inv, Hyz in Hl.
    destruct Hl as [[Hy Hz] | [Hy Hz]]; subst y z;
      repeat first [by left | right].
Qed.

Lemma axes_permutation_cases ax :
  CC.is_axes_permutation ax → ax ∈ CC.axes_permutations.
Proof.
  unfold CC.is_axes_permutation. intros Hax.
  apply Permutation_3 in Hax.
  rewrite <- (string_of_list_ascii_of_string ax).
  set_unfold in Hax. unfold CC.axes_permutations.
  destruct Hax as [-> | [-> | [-> | [-> | [-> | [-> | []]]]]]];
    repeat first [by left | right].
Qed.

Lemma parse_axes_permutation ax :
  ax ∈ CC.axes_permutations → ∃ a, CC.parse_axes ax = Ok a.
Proof.
  unfold CC.axes_permutations. rewrite !elem_of_cons, elem_of_nil.
  intros [-> | [-> | [-> | [-> | [-> | [-> | []]]]]]]; by eexists.
Qed.

(** A box of nonzero width has cells of nonzero size. *)
Lemma width_cell_nonzero (lo hi : Qc) (n : Z) :
  lo ≠ hi → n ≠ 0%Z → (hi - lo) / of_int n ≠ 0.
Proof.
  intros Hw Hn H0. apply Hw.
  assert (hi - lo = (hi - lo) / of_int n * of_int n) as Heq
    by (field; by apply of_int_nonzero).
  rewrite H0 in Heq.
  assert (hi = hi - lo + lo) as -> by ring.
  rewrite Heq. ring.
Qed.

(** The two affine maps of an axis undo each other. *)
Lemma from_lb_to_lb_axis (d p m o : Qc) :
  d ≠ 0 → d * ((p - m) / d - o + o) + m = p.
Proof. intros Hd. by field. Qed.

Lemma to_lb_from_lb_axis (d l m o : Qc) :
  d ≠ 0 → (d * (l + o) + m - m) / d - o = l.
Proof. intros Hd. by field. Qed.

(** A converter with permuted axes and nonzero cell sizes maps back and
    forth without loss. *)
Lemma converter_round_trips v ax a d_x d_y d_z o_x o_y o_z m_x m_y m_z :
  ax ∈ CC.axes_permutations →
  CC.parse_axes ax = Ok a →
  d_x ≠ 0 → d_y ≠ 0 → d_z ≠ 0 →
  let c := {| CC.axes := a; CC.dx := [d_x; d_y; d_z];
              CC.offset := [o_x; o_y; o_z];
              CC.phys_min_x := [m_x; m_y; m_z] |} in
  (∀ p_x p_y p_z, CC.round_trip_phys v c [p_x; p_y; p_z]) ∧
  (∀ l_0 l_1 l_2, CC.round_trip_lb_exact v c [l_0; l_1; l_2]) ∧
  (∀ n_0 n_1 n_2, CC.round_trip_lb v c [n_0; n_1; n_2]).
Proof.
  intros Hax Ha Hx Hy Hz c. subst c.
  unfold CC.axes_permutations in Hax. set_unfold in Hax.
  unfold CC.round_trip_phys, CC.round_trip_lb_exact, CC.round_trip_lb.
  unfold CC.to_lb, CC.from_lb, CC.to_lb_axis, CC.from_lb_axis.
  destruct Hax as [-> | [-> | [-> | [-> | [-> | [-> | []]]]]]];
    vm_compute in Ha; injection Ha as <-;
    cbn [CC.axes CC.dx CC.offset CC.phys_min_x fmap list_fmap].
  all: split; [| split]; intros; eexists.
  all: run_loop; rewrite ?div_nonzero by assumption; run_loop.
  all: split; [reflexivity |].
  all: run_loop; rewrite ?div_nonzero by assumption; run_loop.
  all: rewrite ?from_lb_to_lb_axis, ?to_lb_from_lb_axis by assumption.
  all: cbn [fmap list_fmap]; by rewrite ?int_round_of_int.
Qed.

(** Whatever the shape of the configuration, each turn of the loop of
    [__init__] that completes appends one entry to [dx], [offset] and
    [phys_min_x]. *)
Lemma init_axis_Ok cfg i b self self' :
  CC.init_axis cfg i b self = Ok self' →
  ∃ off d m, self' = CC.append_axis self off d m.
Proof.
  unfold CC.init_axis. intros Hbody.
  repeat match type of Hbody with
  | (?m ≫= _) = Ok _ =>
      destruct m as [? |] eqn:?; cbn in Hbody; [| discriminate Hbody]
  | (let '(_, _) := ?p in _) = Ok _ => destruct p
  end.
  injection Hbody as <-. eauto.
Qed.

(** A converter that was built has one cell size, one offset and one
    origin per entry of [bounding_box], and the axes as parsed. *)
Lemma init_loop_lengths cfg bbox i self c :
  for_enumerate (CC.init_axis cfg) i bbox self = Ok c →
  CC.axes c = CC.axes self ∧
  length (CC.dx c) = (length (CC.dx self) + length bbox)%nat ∧
  length (CC.offset c) = (length (CC.offset self) + length bbox)%nat ∧
  length (CC.phys_min_x c) = (length (CC.phys_min_x self) + length bbox)%nat.
Proof.
  revert i self. induction bbox as [| b bbox IH]; intros i self Hloop.
  - injection Hloop as <-. cbn. repeat split; lia.
  - cbn in Hloop.
    destruct (CC.init_axis cfg i b self) as [self' |] eqn:Hbody;
      [| discriminate Hloop].
    apply init_axis_Ok in Hbody as (off & d & m & ->).
    apply IH in Hloop as (-> & -> & -> & ->).
    cbn. rewrite !length_app. cbn. repeat split; lia.
Qed.

Lemma init_lengths cfg c :
  CC.__init__ cfg = Ok c →
  CC.parse_axes (CC.cfg_axes cfg) = Ok (CC.axes c) ∧
  length (CC.dx c) = length (CC.cfg_bounding_box cfg) ∧
  length (CC.offset c) = length (CC.cfg_bounding_box cfg) ∧
  length (CC.phys_min_x c) = length (CC.cfg_bounding_box cfg).
Proof.
  unfold CC.__init__. intros Hc.
  destruct (CC.parse_axes (CC.cfg_axes cfg)) as [ax |]; [| discriminate Hc].
  by apply init_loop_lengths in Hc as (-> & -> & -> & ->).
Qed.


(** A configuration of the documented shape: three extents in natural
    order, three sizes in lattice order (z, y, x), six paddings, and three
    pairs of cuts or none. *)
Section DocumentedShape.
Variables (cfg : CC.config) (x0 x1 y0 y1 z0 z1 : Qc).
Variables (size_z size_y size_x : Z).
Variables (fwd_x back_x fwd_y back_y fwd_z back_z : Z).
Variable cuts : option ((Z * Z) * (Z * Z) * (Z * Z)).

Hypothesis Hbox : CC.cfg_bounding_box cfg = [(x0, x1); (y0, y1); (z0, z1)].
Hypothesis Hsize : CC.cfg_size cfg = [size_z; size_y; size_x].
Hypothesis Hpadding :
  CC.cfg_padding cfg = Some [fwd_x; back_x; fwd_y; back_y; fwd_z; back_z].
Hypothesis Hcuts : CC.cfg_cuts cfg = CC.cuts_list <$> cuts.

Local Abbreviation cut_x := (CC.cuts_or_zero cuts).1.1.
Local Abbreviation cut_y := (CC.cuts_or_zero cuts).1.2.
Local Abbreviation cut_z := (CC.cuts_or_zero cuts).2.
(** Lattice sizes with the padding removed and the cuts added back. *)
Local Abbreviation n_x := (size_x - fwd_x - back_x + cut_x.1 + cut_x.2)%Z.
Local Abbreviation n_y := (size_y - fwd_y - back_y + cut_y.1 + cut_y.2)%Z.
Local Abbreviation n_z := (size_z - fwd_z - back_z + cut_z.1 + cut_z.2)%Z.

(** Construction is three divisions, in the order x, y, z. *)
Lemma init_spec ax :
  CC.parse_axes (CC.cfg_axes cfg) = Ok ax →
  CC.__init__ cfg =
    d_x ← div (x1 - x0) (of_int n_x);
    d_y ← div (y1 - y0) (of_int n_y);
    d_z ← div (z1 - z0) (of_int n_z);
    Ok {| CC.axes := ax;
          CC.dx := [d_x; d_y; d_z];
          CC.offset :=
            [- fwd_x + cut_x.1; - fwd_y + cut_y.1; - fwd_z + cut_z.1]%Z;
          CC.phys_min_x := [x0; y0; z0] |}.
Proof.
  intros Hax. unfold CC.__init__, CC.init_axis.
  rewrite Hax, Hbox, Hsize, Hpadding, Hcuts.
  destruct cuts as [[[cx cy] cz] |]; cbn [fmap option_fmap option_map
    CC.cuts_list CC.cuts_or_zero default fst snd lookup_key]; run_loop.
  - replace (size_x - fwd_x - back_x + (cx.1 + cx.2))%Z
      with (size_x - fwd_x - back_x + cx.1 + cx.2)%Z by lia.
    replace (size_y - fwd_y - back_y + (cy.1 + cy.2))%Z
      with (size_y - fwd_y - back_y + cy.1 + cy.2)%Z by lia.
    replace (size_z - fwd_z - back_z + (cz.1 + cz.2))%Z
      with (size_z - fwd_z - back_z + cz.1 + cz.2)%Z by lia.
    destruct (div (x1 - x0) _); [| done].
    destruct (div (y1 - y0) _); [| done].
    destruct (div (z1 - z0) _); done.
  - replace (size_x - fwd_x - back_x + 0 + 0)%Z
      with (size_x - fwd_x - back_x)%Z by lia.
    replace (size_y - fwd_y - back_y + 0 + 0)%Z
      with (size_y - fwd_y - back_y)%Z by lia.
    replace (size_z - fwd_z - back_z + 0 + 0)%Z
      with (size_z - fwd_z - back_z)%Z by lia.
    rewrite !Z.add_0_r.
    destruct (div (x1 - x0) _); [| done].
    destruct (div (y1 - y0) _); [| done].
    destruct (div (z1 - z0) _); done.
Qed.

(** Construction succeeds exactly when the axes parse and no lattice size
    is zero once the padding is removed and the cuts are added back. *)
Lemma init_Ok c :
  CC.__init__ cfg = Ok c ↔
  n_x ≠ 0%Z ∧ n_y ≠ 0%Z ∧ n_z ≠ 0%Z ∧
  ∃ ax, CC.parse_axes (CC.cfg_axes cfg) = Ok ax ∧
    c = {| CC.axes := ax;
           CC.dx := [(x1 - x0) / of_int n_x; (y1 - y0) / of_int n_y;
                     (z1 - z0) / of_int n_z];
           CC.offset :=
             [- fwd_x + cut_x.1; - fwd_y + cut_y.1; - fwd_z + cut_z.1]%Z;
           CC.phys_min_x := [x0; y0; z0] |}.
Proof.
  split.
  - intros Hc.
    destruct (CC.parse_axes (CC.cfg_axes cfg)) as [ax |] eqn:Hax;
      [| by unfold CC.__init__ in Hc; rewrite Hax in Hc].
    rewrite (init_spec ax Hax) in Hc.
    destruct (div (x1 - x0) _) as [d_x |] eqn:Hx; [| done].
    destruct (div (y1 - y0) _) as [d_y |] eqn:Hy; [| done].
    destruct (div (z1 - z0) _) as [d_z |] eqn:Hz; [| done].
    apply div_Ok in Hx as [Hx ->], Hy as [Hy ->], Hz as [Hz ->].
    cbn in Hc. injection Hc as <-.
    split; [intros H0; apply Hx; rewrite H0; apply Z2Qc_inj_0 |].
    split; [intros H0; apply Hy; rewrite H0; apply Z2Qc_inj_0 |].
    split; [intros H0; apply Hz; rewrite H0; apply Z2Qc_inj_0 |].
    by exists ax.
  - intros (Hx & Hy & Hz & ax & Hax & ->).
    rewrite (init_spec ax Hax).
    by rewrite !div_nonzero by (by apply of_int_nonzero).
Qed.

(** C4.  After construction, for each natural axis: [dx] is the width of
    the bounding box divided by the lattice size with the padding removed
    and the cuts added back (the cut terms being zero when [cuts] is
    absent), and [offset] is [-padding[2i] + cuts[i][0]]; in particular,
    with all-zero padding and no cuts, [dx] is the width divided by
    [size[2-i]] and [offset] is zero. *)
Theorem C4_dx_and_offset c :
  CC.__init__ cfg = Ok c →
  (n_x ≠ 0 ∧ n_y ≠ 0 ∧ n_z ≠ 0)%Z ∧
  CC.dx c = [(x1 - x0) / of_int n_x; (y1 - y0) / of_int n_y;
             (z1 - z0) / of_int n_z] ∧
  CC.offset c =
    [- fwd_x + cut_x.1; - fwd_y + cut_y.1; - fwd_z + cut_z.1]%Z ∧
  ([fwd_x; back_x; fwd_y; back_y; fwd_z; back_z] = [0; 0; 0; 0; 0; 0]%Z →
   cuts = None →
   CC.dx c = [(x1 - x0) / of_int size_x; (y1 - y0) / of_int size_y;
              (z1 - z0) / of_int size_z] ∧
   CC.offset c = [0; 0; 0]%Z).
Proof.
  intros Hc. apply init_Ok in Hc as (Hx & Hy & Hz & ax & _ & ->).
  cbn [CC.dx CC.offset]. do 3 (split; [done |]).
  intros [= -> -> -> -> -> ->] ->. cbn.
  by rewrite !Z.sub_0_r, !Z.add_0_r.
Qed.

(** C2, amended.  For every configuration whose [axes] permute ['xyz'],
    whose padding and cuts leave nonzero lattice sizes and whose bounding
    box has a nonzero width along every axis, construction succeeds and
    [from_lb(to_lb(p, round_=False))] is [p] for every position [p] of
    three numbers, inside the box or not; conversely
    [to_lb(from_lb(l), round_=False)] is [l]: the two maps are mutual
    inverses.  In the exact arithmetic of the model the equalities hold
    with no tolerance. *)
Theorem C2_round_trip v p_x p_y p_z :
  CC.is_axes_permutation (CC.cfg_axes cfg) →
  n_x ≠ 0%Z → n_y ≠ 0%Z → n_z ≠ 0%Z →
  x0 ≠ x1 → y0 ≠ y1 → z0 ≠ z1 →
  ∃ c, CC.__init__ cfg = Ok c ∧
    CC.round_trip_phys v c [p_x; p_y; p_z] ∧
    ∀ l_0 l_1 l_2, CC.round_trip_lb_exact v c [l_0; l_1; l_2].
Proof.
  intros Hperm Hx Hy Hz Hwx Hwy Hwz.
  apply axes_permutation_cases in Hperm.
  destruct (parse_axes_permutation _ Hperm) as [ax Hax].
  eexists. split; [apply init_Ok; eauto 10 |].
  edestruct (converter_round_trips v) as (Hphys & Hlb & _);
    [exact Hperm | exact Hax | ..]; [| | | split; [apply Hphys | apply Hlb]].
  all: by apply width_cell_nonzero.
Qed.

End DocumentedShape.

Lemma C4_dx_and_offset_witness :
  CC.__init__ shuffled_config = Ok shuffled_converter ∧
  CC.dx shuffled_converter =
    [(1 - - (1)) / of_int (8 - 1 - 1 + 1 + 0);
     (of_int 2 - 0) / of_int (10 - 2 - 0 + 0 + 2);
     (of_int 7 - of_int 3) / of_int (12 - 0 - 3 + 1 + 1)] ∧
  CC.offset shuffled_converter = [- (1) + 1; - (2) + 0; - 0 + 1]%Z.
Proof.
  split; [by_evaluation |].
  pose proof (C4_dx_and_offset shuffled_config (- (1)) 1 0 (of_int 2)
    (of_int 3) (of_int 7) 12 10 8 1 1 2 0 0 3
    (Some ((1, 0), (0, 2), (1, 1)))%Z eq_refl eq_refl eq_refl eq_refl
    shuffled_converter) as Hthm.
  destruct Hthm as (_ & Hdx & Hoff & _); [by_evaluation |].
  split; [exact Hdx | exact Hoff].
Defined.

Lemma shuffled_axes_permutation :
  CC.is_axes_permutation (CC.cfg_axes shuffled_config).
Proof.
  unfold CC.is_axes_permutation. cbn.
  apply (Permutation_cons_append ["x"; "y"]%char "z"%char).
Defined.

Lemma C2_round_trip_witness :
  CC.is_axes_permutation (CC.cfg_axes shuffled_config) ∧
  ∃ c, CC.__init__ shuffled_config = Ok c ∧
    CC.round_trip_phys Py2 c [Q2Qc 0.5; 1; of_int 5] ∧
    ∀ l_0 l_1 l_2, CC.round_trip_lb_exact Py2 c [l_0; l_1; l_2].
Proof.
  split; [exact shuffled_axes_permutation |].
  apply (C2_round_trip shuffled_config (- (1)) 1 0 (of_int 2)
    (of_int 3) (of_int 7) 12 10 8 1 1 2 0 0 3
    (Some ((1, 0), (0, 2), (1, 1)))%Z eq_refl eq_refl eq_refl eq_refl
    Py2 (Q2Qc 0.5) 1 (of_int 5)).
  - exact shuffled_axes_permutation.
  - cbn; lia.
  - cbn; lia.
  - cbn; lia.
  - by_evaluation.
  - by_evaluation.
  - by_evaluation.
Defined.

(** C2 as stated fails on a box of zero width: for the planar box
    [[(0,0),(0,2),(0,3)]] with sizes [[12,10,8]] and no padding,
    construction succeeds with [dx[0] = 0], the position [[0, 1, 1.5]]
    lies in the box, and [to_lb] raises [ZeroDivisionError]. *)
Lemma C2_counterexample :
  CC.is_axes_permutation (CC.cfg_axes flat_config) ∧
  CC.__init__ flat_config = Ok flat_converter ∧
  CC.inside_bounding_box flat_config [0; 1; Q2Qc 1.5] ∧
  CC.to_lb Py2 flat_converter [0; 1; Q2Qc 1.5] false
    = Raise ZeroDivisionError ∧
  ¬ CC.round_trip_phys Py2 flat_converter [0; 1; Q2Qc 1.5] ∧
  ¬ CC.round_trip_phys Py3 flat_converter [0; 1; Q2Qc 1.5].
Proof.
  split; [by unfold CC.is_axes_permutation |]. split; [by_evaluation |].
  split; [repeat constructor; by_evaluation |].
  split; [reflexivity |].
  split; intros (lb_pos & Hto & _); discriminate Hto.
Qed.



(** C5, amended.  Construction does not tolerate a configuration without
    the [padding] key: it is read by direct indexing for every axis, so
    with a non-empty bounding box no converter is built, and once [axes]
    has been parsed the exception is [KeyError].  Only [cuts] is
    optional; no padding is written [padding=[0,0,0,0,0,0]]. *)
Theorem C5_padding_is_required cfg :
  CC.cfg_padding cfg = None →
  CC.cfg_bounding_box cfg ≠ [] →
  (∀ c, CC.__init__ cfg ≠ Ok c) ∧
  (∀ ax, CC.parse_axes (CC.cfg_axes cfg) = Ok ax →
         CC.__init__ cfg = Raise KeyError).
Proof.
  intros Hpad Hbox.
  assert (∀ ax, CC.parse_axes (CC.cfg_axes cfg) = Ok ax →
                CC.__init__ cfg = Raise KeyError) as Hkey.
  { intros ax Hax. unfold CC.__init__. rewrite Hax.
    destruct (CC.cfg_bounding_box cfg) as [| b bbox]; [done |].
    cbn. unfold CC.init_axis. by rewrite Hpad. }
  split; [| exact Hkey].
  intros c Hc.
  destruct (CC.parse_axes (CC.cfg_axes cfg)) as [ax | e] eqn:Hax.
  - by rewrite (Hkey ax) in Hc.
  - unfold CC.__init__ in Hc. by rewrite Hax in Hc.
Qed.

Lemma C5_padding_is_required_witness :
  CC.cfg_padding unpadded_config = None ∧
  CC.cfg_bounding_box unpadded_config ≠ [] ∧
  (∀ c, CC.__init__ unpadded_config ≠ Ok c) ∧
  (∀ ax, CC.parse_axes (CC.cfg_axes unpadded_config) = Ok ax →
         CC.__init__ unpadded_config = Raise KeyError).
Proof.
  split; [reflexivity |]. split; [discriminate |].
  apply (C5_padding_is_required unpadded_config); [reflexivity | discriminate].
Defined.

(** C5 as stated fails: the example configuration without its [padding]
    key raises [KeyError], while with [padding=[0,0,0,0,0,0]] it builds
    the converter. *)
Lemma C5_counterexample :
  CC.cfg_padding unpadded_config = None ∧
  CC.__init__ unpadded_config = Raise KeyError ∧
  CC.__init__ example_config = Ok example_converter ∧
  CC.__init__ unpadded_config ≠ CC.__init__ example_config.
Proof.
  assert (CC.__init__ example_config = Ok example_converter) as Hex
    by by_evaluation.
  split; [reflexivity |]. split; [reflexivity |]. split; [exact Hex |].
  rewrite Hex. discriminate.
Qed.

(** ** UnitConverter *)

(** [set_lb] is its three conditional assignments followed by the
    completion step. *)
Lemma set_lb_assigned visc length velocity self :
  UC.set_lb visc length velocity self =
  UC._update_missing_parameters (UC.assigned visc length velocity self).
Proof. by destruct self, visc, length, velocity. Qed.

(** The completion step leaves the physical attributes alone. *)
Lemma update_phys self :
  let self' := (UC._update_missing_parameters self).1 in
  UC._phys_visc self' = UC._phys_visc self ∧
  UC._phys_len self' = UC._phys_len self ∧
  UC._phys_vel self' = UC._phys_vel self ∧
  UC._phys_freq self' = UC._phys_freq self.
Proof.
  unfold UC._update_missing_parameters, this_object, mbind, method_bind.
  destruct (UC._lb_visc self), (UC._lb_len self), (UC._lb_vel self);
    cbn; try done;
    destruct (UC.Re self); cbn; try done;
    destruct (div _ _); cbn; try done.
Qed.

Lemma Re_assigned visc length velocity self :
  UC.Re (UC.assigned visc length velocity self) = UC.Re self.
Proof. reflexivity. Qed.

(** The three branches of the completion step. *)
Lemma update_derive_visc self len vel :
  UC._lb_visc self = None → UC._lb_len self = Some len →
  UC._lb_vel self = Some vel →
  UC._update_missing_parameters self =
    match UC.Re self with
    | Ok Re =>
        match div (len * vel) Re with
        | Ok visc =>
            (UC.with_lb_visc (Some visc) self,
             if bool_decide (visc <= UC.max_lb_visc) then Ok ()
             else Raise AssertionError)
        | Raise e => (self, Raise e)
        end
    | Raise e => (self, Raise e)
    end.
Proof.
  intros Hvisc Hlen Hvel.
  unfold UC._update_missing_parameters, this_object, mbind, method_bind.
  rewrite Hvisc, Hlen, Hvel. cbn.
  destruct (UC.Re self); cbn; [| done]. by destruct (div _ _).
Qed.

Lemma update_derive_len self visc vel :
  UC._lb_visc self = Some visc → UC._lb_len self = None →
  UC._lb_vel self = Some vel →
  UC._update_missing_parameters self =
    match UC.Re self with
    | Ok Re =>
        match div (Re * visc) vel with
        | Ok len => (UC.with_lb_len (Some len) self, Ok ())
        | Raise e => (self, Raise e)
        end
    | Raise e => (self, Raise e)
    end.
Proof.
  intros Hvisc Hlen Hvel.
  unfold UC._update_missing_parameters, this_object, mbind, method_bind.
  rewrite Hvisc, Hlen, Hvel. cbn.
  destruct (UC.Re self); cbn; [| done]. by destruct (div _ _).
Qed.

Lemma update_derive_vel self visc len :
  UC._lb_visc self = Some visc → UC._lb_len self = Some len →
  UC._lb_vel self = None →
  UC._update_missing_parameters self =
    match UC.Re self with
    | Ok Re =>
        match div (Re * visc) len with
        | Ok vel => (UC.with_lb_vel (Some vel) self, Ok ())
        | Raise e => (self, Raise e)
        end
    | Raise e => (self, Raise e)
    end.
Proof.
  intros Hvisc Hlen Hvel.
  unfold UC._update_missing_parameters, this_object, mbind, method_bind.
  rewrite Hvisc, Hlen, Hvel. cbn.
  destruct (UC.Re self); cbn; [| done]. by destruct (div _ _).
Qed.

(** With fewer than two lattice attributes set, or all three, the
    completion step does nothing. *)
Lemma update_nothing self :
  (UC.lb_set_count self < 2)%nat ∨ UC.lb_set_count self = 3%nat →
  UC._update_missing_parameters self = (self, Ok ()).
Proof.
  unfold UC.lb_set_count, UC._update_missing_parameters, this_object,
    mbind, method_bind.
  destruct (UC._lb_visc self), (UC._lb_len self), (UC._lb_vel self);
    cbn; intros [? | ?]; (done || lia).
Qed.

(** C9.  Every [set_lb] call overwrites exactly the lattice attributes
    whose arguments are not [None], then runs the completion step, which
    leaves the physical attributes alone and derives at most one lattice
    attribute, one that was unset while the other two were set, looking at
    [lb_visc], then [lb_len], then [lb_vel]: an unset [lb_visc] becomes
    [lb_len * lb_vel / Re] and is checked against [1/6], an unset [lb_len]
    becomes [Re * lb_visc / lb_vel], an unset [lb_vel] becomes
    [Re * lb_visc / lb_len], and an exception of [Re] or of the division
    leaves the attributes as assigned; when fewer than two of the three
    are set, or all three, nothing is derived and nothing raised. *)
Theorem C9_set_lb visc length velocity self :
  let s1 := UC.assigned visc length velocity self in
  let s2 := (UC.set_lb visc length velocity self).1 in
  let r := (UC.set_lb visc length velocity self).2 in
  UC.set_lb visc length velocity self = UC._update_missing_parameters s1 ∧
  (UC._phys_visc s2 = UC._phys_visc self ∧
   UC._phys_len s2 = UC._phys_len self ∧
   UC._phys_vel s2 = UC._phys_vel self ∧
   UC._phys_freq s2 = UC._phys_freq self) ∧
  (s2 = s1 ∨
   (UC._lb_visc s1 = None ∧ is_Some (UC._lb_len s1) ∧
    is_Some (UC._lb_vel s1) ∧ ∃ x, s2 = UC.with_lb_visc (Some x) s1) ∨
   (is_Some (UC._lb_visc s1) ∧ UC._lb_len s1 = None ∧
    is_Some (UC._lb_vel s1) ∧ ∃ x, s2 = UC.with_lb_len (Some x) s1) ∨
   (is_Some (UC._lb_visc s1) ∧ is_Some (UC._lb_len s1) ∧
    UC._lb_vel s1 = None ∧ ∃ x, s2 = UC.with_lb_vel (Some x) s1)) ∧
  ((UC.lb_set_count s1 < 2)%nat ∨ UC.lb_set_count s1 = 3%nat →
   s2 = s1 ∧ r = Ok ()) ∧
  (∀ lb_len lb_vel,
     UC._lb_visc s1 = None → UC._lb_len s1 = Some lb_len →
     UC._lb_vel s1 = Some lb_vel →
     UC.set_lb visc length velocity self =
       match UC.Re s1 with
       | Ok Re =>
           match div (lb_len * lb_vel) Re with
           | Ok lb_visc =>
               (UC.with_lb_visc (Some lb_visc) s1,
                if bool_decide (lb_visc <= UC.max_lb_visc) then Ok ()
                else Raise AssertionError)
           | Raise e => (s1, Raise e)
           end
       | Raise e => (s1, Raise e)
       end) ∧
  (∀ lb_visc lb_vel,
     UC._lb_visc s1 = Some lb_visc → UC._lb_len s1 = None →
     UC._lb_vel s1 = Some lb_vel →
     UC.set_lb visc length velocity self =
       match UC.Re s1 with
       | Ok Re =>
           match div (Re * lb_visc) lb_vel with
           | Ok lb_len => (UC.with_lb_len (Some lb_len) s1, Ok ())
           | Raise e => (s1, Raise e)
           end
       | Raise e => (s1, Raise e)
       end) ∧
  (∀ lb_visc lb_len,
     UC._lb_visc s1 = Some lb_visc → UC._lb_len s1 = Some lb_len →
     UC._lb_vel s1 = None →
     UC.set_lb visc length velocity self =
       match UC.Re s1 with
       | Ok Re =>
           match div (Re * lb_visc) lb_len with
           | Ok lb_vel => (UC.with_lb_vel (Some lb_vel) s1, Ok ())
           | Raise e => (s1, Raise e)
           end
       | Raise e => (s1, Raise e)
       end).
Proof.
  intros s1 s2 r. subst s2 r. rewrite set_lb_assigned. fold s1.
  split; [done |]. split; [apply (update_phys s1) |]. split; [| split].
  - destruct (UC._lb_visc s1) as [visc' |] eqn:Hvisc,
      (UC._lb_len s1) as [len' |] eqn:Hlen,
      (UC._lb_vel s1) as [vel' |] eqn:Hvel.
    all: try (left; rewrite update_nothing; [done |];
              unfold UC.lb_set_count; rewrite Hvisc, Hlen, Hvel; cbn; lia).
    + rewrite (update_derive_vel s1 visc' len') by done.
      destruct (UC.Re s1); [| by left]. destruct (div _ _); [| by left].
      right; right; right. eauto 10.
    + rewrite (update_derive_len s1 visc' vel') by done.
      destruct (UC.Re s1); [| by left]. destruct (div _ _); [| by left].
      right; right; left. eauto 10.
    + rewrite (update_derive_visc s1 len' vel') by done.
      destruct (UC.Re s1); [| by left]. destruct (div _ _); [| by left].
      right; left. eauto 10.
  - intros Hcount. by rewrite update_nothing.
  - split; [| split].
    + intros lb_len lb_vel. apply update_derive_visc.
    + intros lb_visc lb_vel. apply update_derive_len.
    + intros lb_visc lb_len. apply update_derive_vel.
Qed.

Lemma C9_set_lb_witness :
  UC._lb_visc
    (UC.assigned (Some (Q2Qc 0.1)) (Some (of_int 10)) None pipe_converter)
    = Some (Q2Qc 0.1) ∧
  UC._lb_len
    (UC.assigned (Some (Q2Qc 0.1)) (Some (of_int 10)) None pipe_converter)
    = Some (of_int 10) ∧
  UC._lb_vel
    (UC.assigned (Some (Q2Qc 0.1)) (Some (of_int 10)) None pipe_converter)
    = None ∧
  UC.set_lb (Some (Q2Qc 0.1)) (Some (of_int 10)) None pipe_converter =
    (UC.with_lb_vel (Some (Q2Qc 0.06))
       (UC.assigned (Some (Q2Qc 0.1)) (Some (of_int 10)) None
          pipe_converter), Ok ()) ∧
  (UC.lb_set_count (UC.assigned (Some (Q2Qc 0.1)) None None pipe_converter)
     < 2)%nat ∧
  UC.set_lb (Some (Q2Qc 0.1)) None None pipe_converter =
    (UC.assigned (Some (Q2Qc 0.1)) None None pipe_converter, Ok ()).
Proof.
  split; [reflexivity |]. split; [reflexivity |]. split; [reflexivity |].
  pose proof (C9_set_lb (Some (Q2Qc 0.1)) (Some (of_int 10)) None
                pipe_converter) as (_ & _ & _ & _ & _ & _ & Hvel).
  pose proof (C9_set_lb (Some (Q2Qc 0.1)) None None pipe_converter)
    as (_ & _ & _ & Hnone & _).
  split.
  - rewrite (Hvel (Q2Qc 0.1) (of_int 10) eq_refl eq_refl eq_refl).
    by_evaluation.
  - split; [cbn; lia |].
    destruct Hnone as [Hs Hr]; [left; cbn; lia |].
    cbv zeta in Hs, Hr.
    destruct (UC.set_lb (Some (Q2Qc 0.1)) None None pipe_converter)
      as [s2 r].
    cbn in Hs, Hr. by rewrite Hs, Hr.
Defined.

(** C6, amended.  Whenever a [set_lb] call derives the lattice viscosity
    ([lb_visc] unset and [lb_len], [lb_vel] set once the arguments are
    assigned) and the derived value [lb_len * lb_vel / Re] is greater than
    [1/6], the call fails with an [AssertionError], the derived value
    staying in the object; and no call that returns normally has derived a
    viscosity above [1/6].  A viscosity supplied as an argument is not
    checked. *)
Theorem C6_derived_viscosity_is_checked visc length velocity self :
  let s1 := UC.assigned visc length velocity self in
  (∀ len vel Re,
     UC._lb_visc s1 = None → UC._lb_len s1 = Some len →
     UC._lb_vel s1 = Some vel →
     UC.Re s1 = Ok Re → Re ≠ 0 →
     UC.max_lb_visc < len * vel / Re →
     UC.set_lb visc length velocity self =
       (UC.with_lb_visc (Some (len * vel / Re)) s1,
        Raise AssertionError)) ∧
  (∀ s2 x,
     UC.set_lb visc length velocity self = (s2, Ok ()) →
     UC._lb_visc s1 = None → UC._lb_visc s2 = Some x →
     x <= UC.max_lb_visc).
Proof.
  intros s1. rewrite set_lb_assigned. fold s1. split.
  - intros len vel Re Hvisc Hlen Hvel HRe HRe0 Hbig.
    rewrite (update_derive_visc s1 len vel) by done.
    rewrite HRe, div_nonzero by done.
    rewrite bool_decide_eq_false_2; [done |].
    by apply Qclt_not_le.
  - intros s2 x Hset Hvisc Hx.
    destruct (UC._lb_len s1) as [len |] eqn:Hlen,
      (UC._lb_vel s1) as [vel |] eqn:Hvel.
    2-4: rewrite update_nothing in Hset
      by (unfold UC.lb_set_count; rewrite Hvisc, Hlen, Hvel; cbn; lia);
      injection Hset as <-; congruence.
    rewrite (update_derive_visc s1 len vel) in Hset by done.
    destruct (UC.Re s1); [| done]. destruct (div _ _) as [nu |]; [| done].
    case_bool_decide; [| done].
    injection Hset as <-. cbn in Hx. congruence.
Qed.

Lemma C6_derived_viscosity_is_checked_witness :
  UC.max_lb_visc < of_int 10 * 1 / of_int 6 ∧
  UC.set_lb None (Some (of_int 10)) (Some 1) pipe_converter =
    (UC.with_lb_visc (Some (of_int 10 * 1 / of_int 6))
       (UC.assigned None (Some (of_int 10)) (Some 1) pipe_converter),
     Raise AssertionError).
Proof.
  split; [by_evaluation |].
  apply (C6_derived_viscosity_is_checked None (Some (of_int 10)) (Some 1)
           pipe_converter).
  - reflexivity.
  - reflexivity.
  - reflexivity.
  - by_evaluation.
  - by_evaluation.
  - by_evaluation.
Defined.

(** C6 as stated fails for a supplied viscosity: on
    [UnitConverter(visc=1, length=1, velocity=1)] the call
    [set_lb(visc=0.5, length=10)] returns normally, deriving
    [lb_vel = 0.05] and leaving [lb_visc = 0.5], above [1/6]. *)
Lemma C6_counterexample :
  UC.__init__ (Some 1) (Some 1) (Some 1) None None = Ok unit_converter ∧
  UC.set_lb (Some (Q2Qc 0.5)) (Some (of_int 10)) None unit_converter =
    ({| UC._phys_visc := Some 1; UC._phys_len := Some 1;
        UC._phys_vel := Some 1; UC._phys_freq := None;
        UC._lb_visc := Some (Q2Qc 0.5); UC._lb_len := Some (of_int 10);
        UC._lb_vel := Some (Q2Qc 0.05) |}, Ok ()) ∧
  UC.max_lb_visc < Q2Qc 0.5.
Proof. repeat split; by_evaluation. Qed.

Lemma quotient_nonzero (a b : Qc) : a ≠ 0 → b ≠ 0 → a / b ≠ 0.
Proof.
  intros Ha Hb H0. apply Ha.
  assert (a = a / b * b) as -> by (by field).
  rewrite H0. ring.
Qed.

Lemma product_nonzero (a b : Qc) : a ≠ 0 → b ≠ 0 → a * b ≠ 0.
Proof.
  intros Ha Hb H0. by destruct (Qcmult_integral _ _ H0).
Qed.

(** C7, amended.  For [UnitConverter(visc=v, length=L, velocity=U)] the
    [Re] property is [L*U/v].  Whenever exactly two of the lattice
    attributes are set once the arguments of a [set_lb] call are assigned,
    neither of them zero, and the third is derived by the completion step,
    [Re_lb] equals [Re] afterwards; in the exact arithmetic of the model
    they are equal with no tolerance.  The third is derived whenever [Re]
    is defined and not zero. *)
Theorem C7_reynolds :
  (∀ v L U Re freq,
     ∃ c, UC.__init__ (Some v) (Some L) (Some U) Re freq = Ok c ∧
          UC.Re c = div (L * U) v) ∧
  (∀ visc length velocity self,
     let s1 := UC.assigned visc length velocity self in
     let s2 := (UC.set_lb visc length velocity self).1 in
     UC.lb_set_count s1 = 2%nat →
     Some 0 ∉ [UC._lb_visc s1; UC._lb_len s1; UC._lb_vel s1] →
     (UC.lb_set_count s2 = 3%nat →
      ∃ Re, UC.Re s2 = Ok Re ∧ UC.Re_lb s2 = Ok Re) ∧
     (∀ Re, UC.Re s1 = Ok Re → Re ≠ 0 → UC.lb_set_count s2 = 3%nat)).
Proof.
  split.
  - intros v L U Re freq. eexists. split; [by destruct Re |].
    by destruct Re.
  - intros visc length velocity self s1 s2 Hcount Hnz. subst s2.
    rewrite set_lb_assigned. fold s1. clearbody s1.
    rewrite !not_elem_of_cons in Hnz. destruct Hnz as (Hv & Hl & Hu & _).
    unfold UC.lb_set_count in Hcount |- *.
    destruct (UC._lb_visc s1) as [visc' |] eqn:Hvisc,
      (UC._lb_len s1) as [len' |] eqn:Hlen,
      (UC._lb_vel s1) as [vel' |] eqn:Hvel; try discriminate Hcount.
    + assert (visc' ≠ 0) as Hvisc0 by congruence.
      assert (len' ≠ 0) as Hlen0 by congruence.
      rewrite (update_derive_vel s1 visc' len') by done.
      destruct (UC.Re s1) as [Re |] eqn:HRe; cbn.
      2: { rewrite Hvisc, Hlen, Hvel. by split. }
      rewrite div_nonzero by done. cbn. rewrite Hvisc, Hlen.
      split; [| done]. intros _. exists Re. split; [exact HRe |].
      unfold UC.Re_lb. cbn. rewrite ?Hvisc, ?Hlen. cbn.
      rewrite div_nonzero by done. f_equal. by field.
    + assert (visc' ≠ 0) as Hvisc0 by congruence.
      assert (vel' ≠ 0) as Hvel0 by congruence.
      rewrite (update_derive_len s1 visc' vel') by done.
      destruct (UC.Re s1) as [Re |] eqn:HRe; cbn.
      2: { rewrite Hvisc, Hlen, Hvel. by split. }
      rewrite div_nonzero by done. cbn. rewrite Hvisc, Hvel.
      split; [| done]. intros _. exists Re. split; [exact HRe |].
      unfold UC.Re_lb. cbn. rewrite ?Hvisc, ?Hvel. cbn.
      rewrite div_nonzero by done. f_equal. by field.
    + assert (len' ≠ 0) as Hlen0 by congruence.
      assert (vel' ≠ 0) as Hvel0 by congruence.
      rewrite (update_derive_visc s1 len' vel') by done.
      destruct (UC.Re s1) as [Re |] eqn:HRe; cbn.
      2: { rewrite Hvisc, Hlen, Hvel. by split. }
      destruct (decide (Re = 0)) as [-> | HRe0].
      { rewrite div_zero. cbn. rewrite Hvisc, Hlen, Hvel.
        split; [done |]. by intros ? [= <-]. }
      rewrite div_nonzero by done. cbn. rewrite Hlen, Hvel.
      split; [| done]. intros _. exists Re. split; [exact HRe |].
      unfold UC.Re_lb. cbn. rewrite ?Hlen, ?Hvel. cbn.
      rewrite div_nonzero
        by (by apply quotient_nonzero; [apply product_nonzero |]).
      f_equal. by field.
Qed.

Lemma C7_reynolds_witness :
  UC.lb_set_count
    (UC.assigned (Some (Q2Qc 0.1)) (Some (of_int 10)) None pipe_converter)
    = 2%nat ∧
  UC.lb_set_count
    (UC.set_lb (Some (Q2Qc 0.1)) (Some (of_int 10)) None pipe_converter).1
    = 3%nat ∧
  ∃ Re,
    UC.Re
      (UC.set_lb (Some (Q2Qc 0.1)) (Some (of_int 10)) None pipe_converter).1
      = Ok Re ∧
    UC.Re_lb
      (UC.set_lb (Some (Q2Qc 0.1)) (Some (of_int 10)) None pipe_converter).1
      = Ok Re.
Proof.
  split; [reflexivity |]. split; [reflexivity |].
  apply (proj2 C7_reynolds (Some (Q2Qc 0.1)) (Some (of_int 10)) None
           pipe_converter).
  - reflexivity.
  - by_evaluation.
  - reflexivity.
Defined.

(** C7 as stated fails when a supplied lattice value is zero: on
    [UnitConverter(visc=1, length=1, velocity=1)] the call
    [set_lb(visc=0, velocity=1)] sets exactly two attributes and derives
    [lb_len = 0]; then [Re] is [1] and [Re_lb] raises
    [ZeroDivisionError]. *)
Lemma C7_counterexample :
  UC.__init__ (Some 1) (Some 1) (Some 1) None None = Ok unit_converter ∧
  UC.lb_set_count (UC.assigned (Some 0) None (Some 1) unit_converter)
    = 2%nat ∧
  UC.set_lb (Some 0) None (Some 1) unit_converter =
    ({| UC._phys_visc := Some 1; UC._phys_len := Some 1;
        UC._phys_vel := Some 1; UC._phys_freq := None;
        UC._lb_visc := Some 0; UC._lb_len := Some 0;
        UC._lb_vel := Some 1 |}, Ok ()) ∧
  UC.Re (UC.set_lb (Some 0) None (Some 1) unit_converter).1 = Ok 1 ∧
  UC.Re_lb (UC.set_lb (Some 0) None (Some 1) unit_converter).1
    = Raise ZeroDivisionError.
Proof. repeat split; by_evaluation. Qed.

(** C8.  In construction with [Re] given and exactly one of [visc],
    [length], [velocity] missing, the missing one is derived as
    [visc = length*velocity/Re], [length = Re*visc/velocity] or
    [velocity = Re*visc/length]; the branches are tried in the order
    [visc], [length], [velocity], so only the first missing attribute in
    that order is ever derived and the others are stored as given. *)
Theorem C8_init_derives_missing Re freq :
  (∀ length velocity,
     UC.__init__ None (Some length) (Some velocity) (Some Re) freq =
       visc ← div (length * velocity) Re;
       Ok {| UC._phys_visc := Some visc; UC._phys_len := Some length;
             UC._phys_vel := Some velocity; UC._phys_freq := freq;
             UC._lb_visc := None; UC._lb_len := None;
             UC._lb_vel := None |}) ∧
  (∀ visc velocity,
     UC.__init__ (Some visc) None (Some velocity) (Some Re) freq =
       length ← div (Re * visc) velocity;
       Ok {| UC._phys_visc := Some visc; UC._phys_len := Some length;
             UC._phys_vel := Some velocity; UC._phys_freq := freq;
             UC._lb_visc := None; UC._lb_len := None;
             UC._lb_vel := None |}) ∧
  (∀ visc length,
     UC.__init__ (Some visc) (Some length) None (Some Re) freq =
       velocity ← div (Re * visc) length;
       Ok {| UC._phys_visc := Some visc; UC._phys_len := Some length;
             UC._phys_vel := Some velocity; UC._phys_freq := freq;
             UC._lb_visc := None; UC._lb_len := None;
             UC._lb_vel := None |}) ∧
  (∀ visc length velocity c,
     UC.__init__ visc length velocity (Some Re) freq = Ok c →
     (visc = None →
      UC._phys_len c = length ∧ UC._phys_vel c = velocity) ∧
     (visc ≠ None → length = None →
      UC._phys_visc c = visc ∧ UC._phys_vel c = velocity) ∧
     (visc ≠ None → length ≠ None →
      UC._phys_visc c = visc ∧ UC._phys_len c = length)).
Proof.
  split; [| split; [| split]].
  - intros length velocity. cbn. by destruct (div _ _).
  - intros visc velocity. cbn. by destruct (div _ _).
  - intros visc length. cbn. by destruct (div _ _).
  - intros [visc |] [length |] [velocity |] c; cbn;
      try destruct (div _ _); cbn; intros [= <-]; done.
Qed.

Lemma C8_init_derives_missing_witness :
  UC.__init__ None (Some (of_int 3)) (Some (of_int 4)) (Some (of_int 6)) None
    = Ok pipe_converter ∧
  UC._phys_len pipe_converter = Some (of_int 3) ∧
  UC._phys_vel pipe_converter = Some (of_int 4).
Proof.
  assert (UC.__init__ None (Some (of_int 3)) (Some (of_int 4))
            (Some (of_int 6)) None = Ok pipe_converter) as Hinit
    by by_evaluation.
  split; [exact Hinit |].
  exact (proj1 (proj2 (proj2 (proj2 (C8_init_derives_missing (of_int 6) None)))
                 None (Some (of_int 3)) (Some (of_int 4)) pipe_converter
                 Hinit) eq_refl).
Defined.

(** C10, amended.  [dx] is [0] whenever [lb_len] is unset, and [dt] is
    [0] whenever [lb_visc] is unset; with [lb_visc] set and [lb_len]
    unset, [dt] is [0] as well provided the physical viscosity is set and
    not zero: the quotient [lb_visc / phys_visc] is evaluated before [dx]
    is read. *)
Theorem C10_dt_zero self :
  (UC._lb_visc self = None → UC.dt self = Ok 0) ∧
  (UC._lb_len self = None → UC.dx self = Ok 0) ∧
  (∀ lb_visc visc,
     UC._lb_len self = None →
     UC._lb_visc self = Some lb_visc →
     UC._phys_visc self = Some visc → visc ≠ 0 →
     UC.dt self = Ok 0).
Proof.
  split; [| split].
  - intros Hvisc. unfold UC.dt. by rewrite Hvisc.
  - intros Hlen. unfold UC.dx. by rewrite Hlen.
  - intros lb_visc visc Hlen Hlb Hphys Hvisc0.
    unfold UC.dt, UC.dx. rewrite Hlb, Hphys, Hlen. cbn.
    rewrite div_nonzero by done. cbn. f_equal. ring.
Qed.

Lemma C10_dt_zero_witness :
  UC._lb_len (UC.with_lb_visc (Some (Q2Qc 0.1)) pipe_converter) = None ∧
  UC.dt (UC.with_lb_visc (Some (Q2Qc 0.1)) pipe_converter) = Ok 0.
Proof.
  split; [reflexivity |].
  apply (proj2 (proj2 (C10_dt_zero
           (UC.with_lb_visc (Some (Q2Qc 0.1)) pipe_converter)))
           (Q2Qc 0.1) (of_int 2)).
  - reflexivity.
  - reflexivity.
  - reflexivity.
  - by_evaluation.
Defined.

(** C10 as stated fails when the physical viscosity is missing: on
    [UnitConverter(length=1, velocity=1)] after [set_lb(visc=0.1)],
    [lb_len] is unset and [lb_visc] is set, and [dt] raises [TypeError]
    on [lb_visc / None]; with a physical viscosity of zero it raises
    [ZeroDivisionError]. *)
Lemma C10_counterexample :
  UC.__init__ None (Some 1) (Some 1) None None = Ok inviscid_converter ∧
  UC.set_lb (Some (Q2Qc 0.1)) None None inviscid_converter =
    (UC.with_lb_visc (Some (Q2Qc 0.1)) inviscid_converter, Ok ()) ∧
  UC._lb_len (UC.with_lb_visc (Some (Q2Qc 0.1)) inviscid_converter)
    = None ∧
  UC.dt (UC.with_lb_visc (Some (Q2Qc 0.1)) inviscid_converter)
    = Raise TypeError ∧
  UC.dt (UC.with_lb_visc (Some (Q2Qc 0.1))
           (UC.with_phys_visc (Some 0) inviscid_converter))
    = Raise ZeroDivisionError.
Proof. repeat split; by_evaluation. Qed.

(** * Further properties *)

(** X1.  Rounding in [to_lb] comes last: the rounded coordinates are the
    coordinates computed without rounding, each replaced by an integer at
    most one half away, and an exception does not depend on [round_]. *)
Theorem to_lb_rounds_to_nearest v self phys_pos :
  (∀ lb_pos : list Qc,
     CC.to_lb v self phys_pos false = Ok lb_pos →
     CC.to_lb v self phys_pos true = Ok (int_round v <$> lb_pos) ∧
     Forall (λ x, x - half <= of_int (int_round v x) ∧
                  of_int (int_round v x) <= x + half) lb_pos) ∧
  (∀ e, CC.to_lb v self phys_pos false = Raise e →
        CC.to_lb v self phys_pos true = Raise e).
Proof.
  unfold CC.to_lb.
  destruct (for_enumerate _ _ _ _) as [l | e]; cbn; split.
  - intros lb_pos [= <-]. split; [done |].
    apply Forall_forall. intros x _. apply int_round_nearest.
  - intros e [=].
  - intros lb_pos [=].
  - by intros ? [= <-].
Qed.

Lemma to_lb_rounds_to_nearest_witness :
  CC.to_lb Py3 shuffled_converter [Q2Qc 0.5; 1; of_int 5] false
    = Ok [of_int 7; Q2Qc 5.25; Q2Qc 4.5] ∧
  CC.to_lb Py3 shuffled_converter [Q2Qc 0.5; 1; of_int 5] true
    = Ok (int_round Py3 <$> [of_int 7; Q2Qc 5.25; Q2Qc 4.5]).
Proof.
  assert (CC.to_lb Py3 shuffled_converter [Q2Qc 0.5; 1; of_int 5] false
            = Ok [of_int 7; Q2Qc 5.25; Q2Qc 4.5]) as Hto by by_evaluation.
  split; [exact Hto |].
  exact (proj1 (proj1 (to_lb_rounds_to_nearest Py3 shuffled_converter
                         [Q2Qc 0.5; 1; of_int 5]) _ Hto)).
Defined.

(** X2.  The rounded coordinates do not depend on the interpreter unless an
    exact coordinate lies half-way between two integers. *)
Theorem to_lb_rounding_versions self phys_pos (lb_pos : list Qc) :
  CC.to_lb Py2 self phys_pos false = Ok lb_pos →
  Forall (λ x, x - of_int (Qfloor x) ≠ half) lb_pos →
  CC.to_lb Py2 self phys_pos true = CC.to_lb Py3 self phys_pos true.
Proof.
  unfold CC.to_lb.
  destruct (for_enumerate _ _ _ _) as [l | e]; cbn; [| done].
  intros [= <-] Hties. f_equal.
  apply Forall_fmap_ext_1. revert Hties. apply Forall_impl.
  intros x Hx. by apply int_round_versions.
Qed.

Lemma to_lb_rounding_versions_witness :
  CC.to_lb Py2 shuffled_converter [Q2Qc 0.5; 1; of_int 6] false
    = Ok [of_int 7; Q2Qc 5.25; Q2Qc 7.25] ∧
  CC.to_lb Py2 shuffled_converter [Q2Qc 0.5; 1; of_int 6] true
    = CC.to_lb Py3 shuffled_converter [Q2Qc 0.5; 1; of_int 6] true.
Proof.
  assert (CC.to_lb Py2 shuffled_converter [Q2Qc 0.5; 1; of_int 6] false
            = Ok [of_int 7; Q2Qc 5.25; Q2Qc 7.25]) as Hto by by_evaluation.
  split; [exact Hto |].
  apply (to_lb_rounding_versions shuffled_converter
           [Q2Qc 0.5; 1; of_int 6] _ Hto).
  repeat constructor; by_evaluation.
Defined.


(** ** Construction of a CoordinateConverter *)

Lemma init_axis_origin cfg i b self self' :
  CC.init_axis cfg i b self = Ok self' →
  ∃ off d phys_size,
    getitem (CC.cfg_bounding_box cfg) i = Ok phys_size ∧
    self' = CC.append_axis self off d phys_size.1.
Proof.
  unfold CC.init_axis. intros Hbody.
  repeat match type of Hbody with
  | (?m ≫= _) = Ok _ =>
      destruct m as [? |] eqn:?; cbn in Hbody; [| discriminate Hbody]
  | (let '(_, _) := ?p in _) = Ok _ => destruct p
  end.
  injection Hbody as <-. eauto.
Qed.

Lemma getitem_middle {A} (pre post : list A) (x : A) :
  getitem (pre ++ x :: post) (Z.of_nat (length pre)) = Ok x.
Proof. apply getitem_lookup, list_lookup_middle. done. Qed.

(** The loop reads the entries of [bounding_box] in turn and records
    their lower ends. *)
Lemma init_loop_origins cfg bbox : ∀ pre self c,
  CC.cfg_bounding_box cfg = pre ++ bbox →
  for_enumerate (CC.init_axis cfg) (Z.of_nat (length pre)) bbox self = Ok c →
  CC.phys_min_x c = CC.phys_min_x self ++ (fst <$> bbox).
Proof.
  induction bbox as [| b bbox IH]; intros pre self c Hcfg Hloop.
  - injection Hloop as <-. cbn. by rewrite app_nil_r.
  - cbn in Hloop.
    destruct (CC.init_axis cfg _ b self) as [self' |] eqn:Hbody;
      [| discriminate Hloop].
    apply init_axis_origin in Hbody as (off & d & phys_size & Hget & ->).
    rewrite Hcfg, getitem_middle in Hget. injection Hget as <-.
    cbn in Hloop.
    replace (Z.of_nat (length pre) + 1)%Z
      with (Z.of_nat (length (pre ++ [b]))) in Hloop
      by (rewrite length_app; cbn; lia).
    apply IH in Hloop; [| by rewrite <- app_assoc].
    rewrite Hloop. cbn. by rewrite <- app_assoc.
Qed.

Lemma parse_axes_length ax a : CC.parse_axes ax = Ok a → length a = 3%nat.
Proof.
  unfold CC.parse_axes.
  destruct (str_index "x" ax); [| done].
  destruct (str_index "y" ax); [| done].
  destruct (str_index "z" ax); [| done].
  by intros [= <-].
Qed.

(** X3.  Whatever the shape of the configuration, a converter that was built
    has the three axis indices parsed from [axes], one cell size and one
    offset per entry of [bounding_box], and for [phys_min_x] the lower
    ends of the bounding box. *)
Theorem init_one_entry_per_axis cfg c :
  CC.__init__ cfg = Ok c →
  CC.parse_axes (CC.cfg_axes cfg) = Ok (CC.axes c) ∧
  length (CC.axes c) = 3%nat ∧
  length (CC.dx c) = length (CC.cfg_bounding_box cfg) ∧
  length (CC.offset c) = length (CC.cfg_bounding_box cfg) ∧
  CC.phys_min_x c = (fst <$> CC.cfg_bounding_box cfg).
Proof.
  intros Hc. pose proof (init_lengths cfg c Hc) as (Hax & Hdx & Hoff & _).
  split; [exact Hax |]. split; [by eapply parse_axes_length |].
  split; [exact Hdx |]. split; [exact Hoff |].
  unfold CC.__init__ in Hc.
  destruct (CC.parse_axes (CC.cfg_axes cfg)) as [ax |]; [| discriminate Hc].
  cbn in Hc. by apply (init_loop_origins cfg _ []) in Hc.
Qed.

Lemma init_one_entry_per_axis_witness :
  CC.__init__ shuffled_config = Ok shuffled_converter ∧
  length (CC.dx shuffled_converter)
    = length (CC.cfg_bounding_box shuffled_config) ∧
  CC.phys_min_x shuffled_converter
    = (fst <$> CC.cfg_bounding_box shuffled_config).
Proof.
  assert (CC.__init__ shuffled_config = Ok shuffled_converter) as Hinit
    by by_evaluation.
  split; [exact Hinit |].
  pose proof (init_one_entry_per_axis _ _ Hinit) as (_ & _ & Hdx & _ & Hmin).
  split; [exact Hdx | exact Hmin].
Defined.

(** [s.index(c)] raises when [c] does not occur, and otherwise returns the
    position of the first occurrence. *)
Lemma str_index_missing c s :
  c ∉ list_ascii_of_string s → str_index c s = Raise ValueError.
Proof.
  induction s as [| a s IH]; cbn; [done |].
  rewrite not_elem_of_cons. intros [Hne Hs].
  destruct (Ascii.eqb_spec a c) as [-> | _]; [done |]. by rewrite IH.
Qed.

Lemma str_index_found c s :
  c ∈ list_ascii_of_string s →
  ∃ k : nat, str_index c s = Ok (Z.of_nat k) ∧
    list_ascii_of_string s !! k = Some c ∧
    ∀ j, (j < k)%nat → list_ascii_of_string s !! j ≠ Some c.
Proof.
  induction s as [| a s IH]; cbn; [by rewrite elem_of_nil |].
  rewrite elem_of_cons. intros Hc.
  destruct (Ascii.eqb_spec a c) as [-> | Hne].
  - exists 0%nat. split; [done |]. split; [done |]. intros j Hj. lia.
  - destruct Hc as [-> | Hc]; [done |].
    destruct (IH Hc) as (k & -> & Hk & Hfirst).
    exists (S k). cbn. split; [f_equal; lia |]. split; [done |].
    intros [| j] Hj; cbn; [congruence | apply Hfirst; lia].
Qed.

Lemma str_index_Ok c s k :
  str_index c s = Ok k → c ∈ list_ascii_of_string s.
Proof.
  revert k. induction s as [| a s IH]; cbn; intros k; [done |].
  destruct (Ascii.eqb_spec a c) as [-> | _]; [by left |].
  destruct (str_index c s); [| done]. intros _. right. by eapply IH.
Qed.

Lemma str_index_Raise c s e : str_index c s = Raise e → e = ValueError.
Proof.
  induction s as [| a s IH]; cbn; [by intros [= <-] |].
  destruct (Ascii.eqb_spec a c); [done |].
  destruct (str_index c s); [done |]. cbn. intros [= <-]. by apply IH.
Qed.

(** X4.  An [axes] string that lacks one of the letters x, y, z makes
    construction raise [ValueError], whatever the rest of the
    configuration; a string that has all three is parsed to the positions
    of their first occurrences (the letter is at the position and at none
    before it), even when it is no permutation. *)
Theorem axes_must_name_every_axis :
  (∀ cfg c,
     c ∈ ["x"; "y"; "z"]%char →
     c ∉ list_ascii_of_string (CC.cfg_axes cfg) →
     CC.__init__ cfg = Raise ValueError) ∧
  (∀ ax,
     (∀ c, c ∈ ["x"; "y"; "z"]%char → c ∈ list_ascii_of_string ax) →
     ∃ k_x k_y k_z : nat,
       CC.parse_axes ax = Ok [Z.of_nat k_x; Z.of_nat k_y; Z.of_nat k_z] ∧
       (list_ascii_of_string ax !! k_x = Some "x"%char ∧
        ∀ j, (j < k_x)%nat → list_ascii_of_string ax !! j ≠ Some "x"%char) ∧
       (list_ascii_of_string ax !! k_y = Some "y"%char ∧
        ∀ j, (j < k_y)%nat → list_ascii_of_string ax !! j ≠ Some "y"%char) ∧
       (list_ascii_of_string ax !! k_z = Some "z"%char ∧
        ∀ j, (j < k_z)%nat → list_ascii_of_string ax !! j ≠ Some "z"%char)).
Proof.
  split.
  - intros cfg c Hc Hmiss. unfold CC.__init__, CC.parse_axes.
    destruct (str_index "x" _) as [k_x | e] eqn:Hx;
      [| by rewrite (str_index_Raise _ _ _ Hx)].
    destruct (str_index "y" _) as [k_y | e] eqn:Hy;
      [| by rewrite (str_index_Raise _ _ _ Hy)].
    destruct (str_index "z" _) as [k_z | e] eqn:Hz;
      [| by rewrite (str_index_Raise _ _ _ Hz)].
    apply str_index_Ok in Hx, Hy, Hz.
    rewrite !elem_of_cons, elem_of_nil in Hc.
    by destruct Hc as [-> | [-> | [-> | []]]].
  - intros ax Hall. unfold CC.parse_axes.
    destruct (str_index_found "x" ax) as (k_x & -> & Hx & Hx1);
      [apply Hall; repeat first [by left | right] |].
    destruct (str_index_found "y" ax) as (k_y & -> & Hy & Hy1);
      [apply Hall; repeat first [by left | right] |].
    destruct (str_index_found "z" ax) as (k_z & -> & Hz & Hz1);
      [apply Hall; repeat first [by left | right] |].
    by exists k_x, k_y, k_z.
Qed.

Lemma axes_must_name_every_axis_witness :
  ("z"%char ∉ list_ascii_of_string "xy") ∧
  CC.__init__
    {| CC.cfg_axes := "xy"; CC.cfg_bounding_box := [];
       CC.cfg_size := []; CC.cfg_padding := None; CC.cfg_cuts := None |}
    = Raise ValueError ∧
  ∃ k_x k_y k_z : nat,
    CC.parse_axes "xyzx" = Ok [Z.of_nat k_x; Z.of_nat k_y; Z.of_nat k_z] ∧
    (list_ascii_of_string "xyzx" !! k_x = Some "x"%char ∧
     ∀ j, (j < k_x)%nat → list_ascii_of_string "xyzx" !! j ≠ Some "x"%char) ∧
    (list_ascii_of_string "xyzx" !! k_y = Some "y"%char ∧
     ∀ j, (j < k_y)%nat → list_ascii_of_string "xyzx" !! j ≠ Some "y"%char) ∧
    (list_ascii_of_string "xyzx" !! k_z = Some "z"%char ∧
     ∀ j, (j < k_z)%nat → list_ascii_of_string "xyzx" !! j ≠ Some "z"%char).
Proof.
  assert ("z"%char ∉ list_ascii_of_string "xy") as Hz
    by (cbn; rewrite !not_elem_of_cons, elem_of_nil;
        split; [discriminate | split; [discriminate | tauto]]).
  split; [exact Hz |]. split.
  - apply (proj1 axes_must_name_every_axis _ "z"%char); [| exact Hz].
    by right; right; left.
  - apply (proj2 axes_must_name_every_axis "xyzx"%string).
    intros c Hc. rewrite !elem_of_cons, elem_of_nil in Hc. cbn.
    destruct Hc as [-> | [-> | [-> | []]]]; repeat first [by left | right].
Defined.


Lemma div_of_int_zero a : div a (of_int 0) = Raise ZeroDivisionError.
Proof. unfold of_int. by rewrite Z2Qc_inj_0. Qed.

Section ShapeEdges.
Variables (cfg : CC.config) (x0 x1 y0 y1 z0 z1 : Qc).
Variables (size_z size_y size_x : Z).
Variables (fwd_x back_x fwd_y back_y fwd_z back_z : Z).
Variable cuts : option ((Z * Z) * (Z * Z) * (Z * Z)).

Hypothesis Hbox : CC.cfg_bounding_box cfg = [(x0, x1); (y0, y1); (z0, z1)].
Hypothesis Hsize : CC.cfg_size cfg = [size_z; size_y; size_x].
Hypothesis Hpadding :
  CC.cfg_padding cfg = Some [fwd_x; back_x; fwd_y; back_y; fwd_z; back_z].
Hypothesis Hcuts : CC.cfg_cuts cfg = CC.cuts_list <$> cuts.

Local Abbreviation cut_x := (CC.cuts_or_zero cuts).1.1.
Local Abbreviation cut_y := (CC.cuts_or_zero cuts).1.2.
Local Abbreviation cut_z := (CC.cuts_or_zero cuts).2.
Local Abbreviation n_x := (size_x - fwd_x - back_x + cut_x.1 + cut_x.2)%Z.
Local Abbreviation n_y := (size_y - fwd_y - back_y + cut_y.1 + cut_y.2)%Z.
Local Abbreviation n_z := (size_z - fwd_z - back_z + cut_z.1 + cut_z.2)%Z.

(** X5.  When the padding uses up the whole lattice along some axis (size
    minus padding plus cuts is zero), construction raises
    [ZeroDivisionError]. *)
Theorem init_zero_size ax :
  CC.parse_axes (CC.cfg_axes cfg) = Ok ax →
  (n_x = 0 ∨ n_y = 0 ∨ n_z = 0)%Z →
  CC.__init__ cfg = Raise ZeroDivisionError.
Proof.
  intros Hax Hzero.
  rewrite (init_spec cfg x0 x1 y0 y1 z0 z1 size_z size_y size_x
             fwd_x back_x fwd_y back_y fwd_z back_z cuts
             Hbox Hsize Hpadding Hcuts ax Hax).
  destruct (decide (n_x = 0%Z)) as [-> | Hx]; [by rewrite div_of_int_zero |].
  rewrite (div_nonzero _ (of_int n_x)) by (by apply of_int_nonzero). cbn.
  destruct (decide (n_y = 0%Z)) as [-> | Hy]; [by rewrite div_of_int_zero |].
  rewrite (div_nonzero _ (of_int n_y)) by (by apply of_int_nonzero). cbn.
  destruct (decide (n_z = 0%Z)) as [-> | Hz]; [by rewrite div_of_int_zero |].
  lia.
Qed.
End ShapeEdges.

Lemma init_zero_size_witness :
  CC.parse_axes (CC.cfg_axes padded_out_config) = Ok [0; 1; 2]%Z ∧
  CC.__init__ padded_out_config = Raise ZeroDivisionError.
Proof.
  split; [reflexivity |].
  apply (init_zero_size padded_out_config 0 1 0 1 0 1 8 8 2 1 1 0 0 0 0 None
           eq_refl eq_refl eq_refl eq_refl [0; 1; 2]%Z)%Z.
  - reflexivity.
  - left. reflexivity.
Defined.

(** X6.  [cuts] is optional: a configuration without the key builds the same
    converter, or raises the same exception, as the configuration with
    [cuts=[(0,0),(0,0),(0,0)]]. *)
Theorem init_cuts_default cfg cfg' b_x b_y b_z size_z size_y size_x
    fwd_x back_x fwd_y back_y fwd_z back_z :
  CC.cfg_axes cfg' = CC.cfg_axes cfg →
  CC.cfg_bounding_box cfg = [b_x; b_y; b_z] →
  CC.cfg_bounding_box cfg' = [b_x; b_y; b_z] →
  CC.cfg_size cfg = [size_z; size_y; size_x] →
  CC.cfg_size cfg' = [size_z; size_y; size_x] →
  CC.cfg_padding cfg = Some [fwd_x; back_x; fwd_y; back_y; fwd_z; back_z] →
  CC.cfg_padding cfg' = Some [fwd_x; back_x; fwd_y; back_y; fwd_z; back_z] →
  CC.cfg_cuts cfg = None →
  CC.cfg_cuts cfg' = Some [(0, 0); (0, 0); (0, 0)]%Z →
  CC.__init__ cfg = CC.__init__ cfg'.
Proof.
  intros Hax Hbox Hbox' Hsize Hsize' Hpad Hpad' Hcuts Hcuts'.
  destruct b_x as [x0 x1], b_y as [y0 y1], b_z as [z0 z1].
  destruct (CC.parse_axes (CC.cfg_axes cfg)) as [ax | e] eqn:Hparse.
  - rewrite (init_spec cfg x0 x1 y0 y1 z0 z1 size_z size_y size_x
               fwd_x back_x fwd_y back_y fwd_z back_z None
               Hbox Hsize Hpad Hcuts ax Hparse).
    rewrite <- Hax in Hparse.
    by rewrite (init_spec cfg' x0 x1 y0 y1 z0 z1 size_z size_y size_x
               fwd_x back_x fwd_y back_y fwd_z back_z
               (Some ((0, 0), (0, 0), (0, 0)))%Z
               Hbox' Hsize' Hpad' Hcuts' ax Hparse).
  - unfold CC.__init__. by rewrite Hax, Hparse.
Qed.

Lemma init_cuts_default_witness :
  CC.cfg_cuts example_config = None ∧
  CC.cfg_cuts zero_cuts_config = Some [(0, 0); (0, 0); (0, 0)]%Z ∧
  CC.__init__ example_config = CC.__init__ zero_cuts_config.
Proof.
  split; [reflexivity |]. split; [reflexivity |].
  by eapply (init_cuts_default example_config zero_cuts_config).
Defined.


(** ** The two maps of a converter with permuted axes *)

Lemma getitem_fmap {A B} (f : A → B) (l : list A) i x :
  getitem l i = Ok x → getitem (f <$> l) i = Ok (f x).
Proof.
  unfold getitem. rewrite length_fmap.
  destruct (norm_index (length l) i) as [k |]; cbn; [| done].
  rewrite list_lookup_fmap. by destruct (l !! k); intros [= <-].
Qed.

Lemma parse_axes_permutation_cases ax a :
  ax ∈ CC.axes_permutations → CC.parse_axes ax = Ok a →
  a ∈ [[0; 1; 2]; [0; 2; 1]; [1; 0; 2]; [2; 0; 1]; [1; 2; 0]; [2; 1; 0]]%Z.
Proof.
  unfold CC.axes_permutations. rewrite !elem_of_cons, elem_of_nil.
  intros [-> | [-> | [-> | [-> | [-> | [-> | []]]]]]];
    vm_compute; intros [= <-]; repeat first [by left | right].
Qed.

(** [to_lb] puts the coordinate of the natural axis [i] into the slot
    [2 - axes[i]] of its result. *)
Lemma to_lb_permuted v a a_x a_y a_z d_x d_y d_z o_x o_y o_z m_x m_y m_z
    p_x p_y p_z :
  a = [a_x; a_y; a_z] →
  a ∈ [[0; 1; 2]; [0; 2; 1]; [1; 0; 2]; [2; 0; 1]; [1; 2; 0]; [2; 1; 0]]%Z →
  d_x ≠ 0 → d_y ≠ 0 → d_z ≠ 0 →
  let c := {| CC.axes := a; CC.dx := [d_x; d_y; d_z];
              CC.offset := [o_x; o_y; o_z];
              CC.phys_min_x := [m_x; m_y; m_z] |} in
  ∃ lb_pos : list Qc,
    CC.to_lb v c [p_x; p_y; p_z] false = Ok lb_pos ∧
    length lb_pos = 3%nat ∧
    getitem lb_pos (2 - a_x) = Ok ((p_x - m_x) / d_x - of_int o_x) ∧
    getitem lb_pos (2 - a_y) = Ok ((p_y - m_y) / d_y - of_int o_y) ∧
    getitem lb_pos (2 - a_z) = Ok ((p_z - m_z) / d_z - of_int o_z).
Proof.
  intros -> Ha Hx Hy Hz c. subst c.
  rewrite !elem_of_cons, elem_of_nil in Ha.
  unfold CC.to_lb, CC.to_lb_axis.
  destruct Ha as [Ha | [Ha | [Ha | [Ha | [Ha | [Ha | []]]]]]];
    injection Ha as -> -> ->;
    cbn [CC.axes CC.dx CC.offset CC.phys_min_x];
    run_loop; rewrite ?div_nonzero by assumption; run_loop;
    (eexists; split; [reflexivity |]); (split; [reflexivity |]);
    run_loop; done.
Qed.

(** [from_lb] reads the coordinate of the natural axis [j] from the slot
    [2 - axes[j]] of its argument. *)
Lemma from_lb_permuted a a_x a_y a_z d_x d_y d_z o_x o_y o_z m_x m_y m_z
    (lb_pos : list Qc) l_x l_y l_z :
  a = [a_x; a_y; a_z] →
  a ∈ [[0; 1; 2]; [0; 2; 1]; [1; 0; 2]; [2; 0; 1]; [1; 2; 0]; [2; 1; 0]]%Z →
  length lb_pos = 3%nat →
  getitem lb_pos (2 - a_x) = Ok l_x →
  getitem lb_pos (2 - a_y) = Ok l_y →
  getitem lb_pos (2 - a_z) = Ok l_z →
  let c := {| CC.axes := a; CC.dx := [d_x; d_y; d_z];
              CC.offset := [o_x; o_y; o_z];
              CC.phys_min_x := [m_x; m_y; m_z] |} in
  CC.from_lb c lb_pos =
    Ok [d_x * (l_x + of_int o_x) + m_x; d_y * (l_y + of_int o_y) + m_y;
        d_z * (l_z + of_int o_z) + m_z].
Proof.
  intros -> Ha Hlen Hlx Hly Hlz c. subst c.
  destruct lb_pos as [| l_0 [| l_1 [| l_2 [| ? ?]]]]; try discriminate Hlen.
  rewrite !elem_of_cons, elem_of_nil in Ha.
  unfold CC.from_lb, CC.from_lb_axis.
  destruct Ha as [Ha | [Ha | [Ha | [Ha | [Ha | [Ha | []]]]]]];
    injection Ha as -> -> ->;
    vm_compute in Hlx, Hly, Hlz;
    injection Hlx as <-; injection Hly as <-; injection Hlz as <-;
    cbn [CC.axes CC.dx CC.offset CC.phys_min_x];
    run_loop; done.
Qed.

(** A fourth coordinate is an error in either direction: [to_lb] finds no
    fourth entry in [phys_min_x], and [from_lb] finds no axis for the
    slot. *)
Lemma too_many_coordinates v a d_x d_y d_z o_x o_y o_z m_x m_y m_z
    c_0 c_1 c_2 c_3 (rest : list Qc) round_ :
  a ∈ [[0; 1; 2]; [0; 2; 1]; [1; 0; 2]; [2; 0; 1]; [1; 2; 0]; [2; 1; 0]]%Z →
  d_x ≠ 0 → d_y ≠ 0 → d_z ≠ 0 →
  let c := {| CC.axes := a; CC.dx := [d_x; d_y; d_z];
              CC.offset := [o_x; o_y; o_z];
              CC.phys_min_x := [m_x; m_y; m_z] |} in
  CC.to_lb v c (c_0 :: c_1 :: c_2 :: c_3 :: rest) round_ = Raise IndexError ∧
  CC.from_lb c (c_0 :: c_1 :: c_2 :: c_3 :: rest) = Raise ValueError.
Proof.
  intros Ha Hx Hy Hz c. subst c.
  rewrite !elem_of_cons, elem_of_nil in Ha.
  unfold CC.to_lb, CC.from_lb, CC.to_lb_axis, CC.from_lb_axis.
  destruct Ha as [-> | [-> | [-> | [-> | [-> | [-> | []]]]]]];
    cbn [CC.axes CC.dx CC.offset CC.phys_min_x];
    run_loop; rewrite ?div_nonzero by assumption; run_loop;
    by destruct round_.
Qed.


Lemma difference_nonzero (lo hi : Qc) : lo ≠ hi → hi - lo ≠ 0.
Proof.
  intros Hw H0. apply Hw.
  assert (hi = hi - lo + lo) as -> by ring. rewrite H0. ring.
Qed.

(** The error of rounding is at most one half. *)
Lemma rounding_error v (x : Qc) :
  - half <= of_int (int_round v x) - x ∧ of_int (int_round v x) - x <= half.
Proof.
  destruct (int_round_nearest_Q v x) as [Hl Hu].
  unfold Qcle. rewrite this_minus, this_of_int.
  change (this (- half)) with (- (1 # 2))%Q. rewrite this_half.
  split; lra.
Qed.

Section BuiltConverter.
Variables (cfg : CC.config) (x0 x1 y0 y1 z0 z1 : Qc).
Variables (size_z size_y size_x : Z).
Variables (fwd_x back_x fwd_y back_y fwd_z back_z : Z).
Variable cuts : option ((Z * Z) * (Z * Z) * (Z * Z)).
Variable c : CC.t.

Hypothesis Hbox : CC.cfg_bounding_box cfg = [(x0, x1); (y0, y1); (z0, z1)].
Hypothesis Hsize : CC.cfg_size cfg = [size_z; size_y; size_x].
Hypothesis Hpadding :
  CC.cfg_padding cfg = Some [fwd_x; back_x; fwd_y; back_y; fwd_z; back_z].
Hypothesis Hcuts : CC.cfg_cuts cfg = CC.cuts_list <$> cuts.
Hypothesis Hperm : CC.is_axes_permutation (CC.cfg_axes cfg).
Hypothesis Hinit : CC.__init__ cfg = Ok c.

Local Abbreviation cut_x := (CC.cuts_or_zero cuts).1.1.
Local Abbreviation cut_y := (CC.cuts_or_zero cuts).1.2.
Local Abbreviation cut_z := (CC.cuts_or_zero cuts).2.
Local Abbreviation n_x := (size_x - fwd_x - back_x + cut_x.1 + cut_x.2)%Z.
Local Abbreviation n_y := (size_y - fwd_y - back_y + cut_y.1 + cut_y.2)%Z.
Local Abbreviation n_z := (size_z - fwd_z - back_z + cut_z.1 + cut_z.2)%Z.
Local Abbreviation d_x := ((x1 - x0) / of_int n_x).
Local Abbreviation d_y := ((y1 - y0) / of_int n_y).
Local Abbreviation d_z := ((z1 - z0) / of_int n_z).
Local Abbreviation off_x := (- fwd_x + cut_x.1)%Z.
Local Abbreviation off_y := (- fwd_y + cut_y.1)%Z.
Local Abbreviation off_z := (- fwd_z + cut_z.1)%Z.

Lemma built_converter :
  ∃ a_x a_y a_z,
    [a_x; a_y; a_z] ∈
      [[0; 1; 2]; [0; 2; 1]; [1; 0; 2]; [2; 0; 1]; [1; 2; 0]; [2; 1; 0]]%Z ∧
    CC.parse_axes (CC.cfg_axes cfg) = Ok [a_x; a_y; a_z] ∧
    (n_x ≠ 0 ∧ n_y ≠ 0 ∧ n_z ≠ 0)%Z ∧
    c = {| CC.axes := [a_x; a_y; a_z]; CC.dx := [d_x; d_y; d_z];
           CC.offset := [off_x; off_y; off_z];
           CC.phys_min_x := [x0; y0; z0] |}.
Proof.
  pose proof (proj1 (init_Ok cfg x0 x1 y0 y1 z0 z1 size_z size_y size_x
    fwd_x back_x fwd_y back_y fwd_z back_z cuts Hbox Hsize Hpadding Hcuts c)
    Hinit) as (Hx & Hy & Hz & ax & Hax & ->).
  pose proof (parse_axes_permutation_cases _ ax
    (axes_permutation_cases _ Hperm) Hax) as Hcases.
  pose proof (parse_axes_length _ _ Hax) as Hlen.
  destruct ax as [| a_x [| a_y [| a_z [| ? ?]]]]; try discriminate Hlen.
  exists a_x, a_y, a_z. done.
Qed.

(** X7.  For a configuration of the documented shape with permuted axes and a
    box of nonzero widths, [to_lb] without rounding puts
    [(p - min) / dx - offset] of the natural axis [i] into the slot
    [2 - axes[i]], and [from_lb] reads the lattice coordinate of that axis
    from the same slot and returns [dx * (l + offset) + min] in natural
    order. *)
Theorem axes_are_permuted_slots v p_x p_y p_z :
  x0 ≠ x1 → y0 ≠ y1 → z0 ≠ z1 →
  ∃ a_x a_y a_z (lb_pos : list Qc),
    CC.axes c = [a_x; a_y; a_z] ∧
    CC.to_lb v c [p_x; p_y; p_z] false = Ok lb_pos ∧
    length lb_pos = 3%nat ∧
    getitem lb_pos (2 - a_x) = Ok ((p_x - x0) / d_x - of_int off_x) ∧
    getitem lb_pos (2 - a_y) = Ok ((p_y - y0) / d_y - of_int off_y) ∧
    getitem lb_pos (2 - a_z) = Ok ((p_z - z0) / d_z - of_int off_z) ∧
    ∀ (l : list Qc) l_x l_y l_z,
      length l = 3%nat →
      getitem l (2 - a_x) = Ok l_x →
      getitem l (2 - a_y) = Ok l_y →
      getitem l (2 - a_z) = Ok l_z →
      CC.from_lb c l =
        Ok [d_x * (l_x + of_int off_x) + x0;
            d_y * (l_y + of_int off_y) + y0;
            d_z * (l_z + of_int off_z) + z0].
Proof.
  intros Hwx Hwy Hwz.
  destruct built_converter as (a_x & a_y & a_z & Ha & _ & (Hx & Hy & Hz) & ->).
  edestruct (to_lb_permuted v [a_x; a_y; a_z] a_x a_y a_z d_x d_y d_z
               off_x off_y off_z x0 y0 z0 p_x p_y p_z eq_refl Ha)
    as (lb_pos & Hto & Hlen & Hlx & Hly & Hlz);
    [by apply width_cell_nonzero .. |].
  exists a_x, a_y, a_z, lb_pos. do 6 (split; [done |]).
  intros l l_x l_y l_z Hl Hx' Hy' Hz'.
  by apply (from_lb_permuted [a_x; a_y; a_z] a_x a_y a_z).
Qed.

(** X8.  The corners of the bounding box: with rounding, on either
    interpreter, the lower corner goes to the lattice node
    [padding_fwd - cut_fwd] and the upper corner to
    [size - padding_back + cut_back] along each axis. *)
Theorem bounding_box_corners v :
  x0 ≠ x1 → y0 ≠ y1 → z0 ≠ z1 →
  ∃ a_x a_y a_z (lower upper : list Z),
    CC.axes c = [a_x; a_y; a_z] ∧
    CC.to_lb v c [x0; y0; z0] true = Ok lower ∧
    getitem lower (2 - a_x) = Ok (fwd_x - cut_x.1)%Z ∧
    getitem lower (2 - a_y) = Ok (fwd_y - cut_y.1)%Z ∧
    getitem lower (2 - a_z) = Ok (fwd_z - cut_z.1)%Z ∧
    CC.to_lb v c [x1; y1; z1] true = Ok upper ∧
    getitem upper (2 - a_x) = Ok (size_x - back_x + cut_x.2)%Z ∧
    getitem upper (2 - a_y) = Ok (size_y - back_y + cut_y.2)%Z ∧
    getitem upper (2 - a_z) = Ok (size_z - back_z + cut_z.2)%Z.
Proof.
  intros Hwx Hwy Hwz.
  destruct built_converter as (a_x & a_y & a_z & Ha & _ & (Hx & Hy & Hz) & ->).
  assert (∀ lo hi n off, lo ≠ hi → n ≠ 0%Z →
            (lo - lo) / ((hi - lo) / of_int n) - of_int off
              = of_int (- off)) as Hlower.
  { intros lo hi n off Hw Hn. unfold of_int. rewrite Z2Qc_inj_opp.
    field. split; [by apply of_int_nonzero | by apply difference_nonzero]. }
  assert (∀ lo hi n off, lo ≠ hi → n ≠ 0%Z →
            (hi - lo) / ((hi - lo) / of_int n) - of_int off
              = of_int (n - off)) as Hupper.
  { intros lo hi n off Hw Hn. unfold of_int. rewrite Z2Qc_inj_sub.
    field. split; [by apply of_int_nonzero | by apply difference_nonzero]. }
  edestruct (to_lb_permuted v [a_x; a_y; a_z] a_x a_y a_z d_x d_y d_z
               off_x off_y off_z x0 y0 z0 x0 y0 z0 eq_refl Ha)
    as (lo & Hlo & _ & Hlox & Hloy & Hloz);
    [by apply width_cell_nonzero .. |].
  edestruct (to_lb_permuted v [a_x; a_y; a_z] a_x a_y a_z d_x d_y d_z
               off_x off_y off_z x0 y0 z0 x1 y1 z1 eq_refl Ha)
    as (up & Hup & _ & Hupx & Hupy & Hupz);
    [by apply width_cell_nonzero .. |].
  apply (proj1 (to_lb_rounds_to_nearest v _ _)) in Hlo as [Hlo _].
  apply (proj1 (to_lb_rounds_to_nearest v _ _)) in Hup as [Hup _].
  rewrite Hlower in Hlox, Hloy, Hloz by done.
  rewrite Hupper in Hupx, Hupy, Hupz by done.
  apply (getitem_fmap (int_round v)) in Hlox, Hloy, Hloz, Hupx, Hupy, Hupz.
  rewrite int_round_of_int in Hlox, Hloy, Hloz, Hupx, Hupy, Hupz.
  exists a_x, a_y, a_z, (int_round v <$> lo), (int_round v <$> up).
  split; [done |]. split; [exact Hlo |].
  split; [rewrite Hlox; f_equal; lia |].
  split; [rewrite Hloy; f_equal; lia |].
  split; [rewrite Hloz; f_equal; lia |].
  split; [exact Hup |].
  split; [rewrite Hupx; f_equal; lia |].
  split; [rewrite Hupy; f_equal; lia |].
  rewrite Hupz; f_equal; lia.
Qed.

(** X9.  Snapping a position to the lattice moves it by at most half a
    cell along each axis, up to floating-point rounding:
    [from_lb(to_lb(p))] with rounding, on either interpreter, is
    [p + dx * e] with [e] between [-1/2] and [1/2] (exactly so in the
    exact arithmetic of the model). *)
Theorem snap_to_lattice v p_x p_y p_z :
  x0 ≠ x1 → y0 ≠ y1 → z0 ≠ z1 →
  ∃ (lb_pos : list Z) e_x e_y e_z,
    CC.to_lb v c [p_x; p_y; p_z] true = Ok lb_pos ∧
    CC.from_lb c (of_int <$> lb_pos) =
      Ok [p_x + d_x * e_x; p_y + d_y * e_y; p_z + d_z * e_z] ∧
    (- half <= e_x ∧ e_x <= half) ∧
    (- half <= e_y ∧ e_y <= half) ∧
    (- half <= e_z ∧ e_z <= half).
Proof.
  intros Hwx Hwy Hwz.
  destruct built_converter as (a_x & a_y & a_z & Ha & _ & (Hx & Hy & Hz) & ->).
  pose proof (width_cell_nonzero _ _ _ Hwx Hx) as Hdx.
  pose proof (width_cell_nonzero _ _ _ Hwy Hy) as Hdy.
  pose proof (width_cell_nonzero _ _ _ Hwz Hz) as Hdz.
  edestruct (to_lb_permuted v [a_x; a_y; a_z] a_x a_y a_z d_x d_y d_z
               off_x off_y off_z x0 y0 z0 p_x p_y p_z eq_refl Ha)
    as (l & Hto & Hlen & Hlx & Hly & Hlz); [done .. |].
  apply (proj1 (to_lb_rounds_to_nearest v _ _)) in Hto as [Hto _].
  apply (getitem_fmap (int_round v)), (getitem_fmap of_int)
    in Hlx, Hly, Hlz.
  exists (int_round v <$> l),
    (of_int (int_round v ((p_x - x0) / d_x - of_int off_x))
       - ((p_x - x0) / d_x - of_int off_x)),
    (of_int (int_round v ((p_y - y0) / d_y - of_int off_y))
       - ((p_y - y0) / d_y - of_int off_y)),
    (of_int (int_round v ((p_z - z0) / d_z - of_int off_z))
       - ((p_z - z0) / d_z - of_int off_z)).
  split; [exact Hto |].
  split.
  - assert (length (of_int <$> (int_round v <$> l)) = 3%nat) as Hlen'
      by (by rewrite !length_fmap).
    rewrite (from_lb_permuted [a_x; a_y; a_z] a_x a_y a_z d_x d_y d_z
               off_x off_y off_z x0 y0 z0 _ _ _ _ eq_refl Ha
               Hlen' Hlx Hly Hlz).
    f_equal.
    assert (∀ d n off m p : Qc, d ≠ 0 →
              d * (n + off) + m = p + d * (n - ((p - m) / d - off))) as Hsnap
      by (intros; by field).
    by rewrite (Hsnap d_x _ _ x0 p_x), (Hsnap d_y _ _ y0 p_y),
      (Hsnap d_z _ _ z0 p_z) by done.
  - repeat split; apply rounding_error.
Qed.

(** X10.  A fourth coordinate is an error in either direction: [to_lb] raises
    [IndexError] and [from_lb] raises [ValueError]. *)
Theorem fourth_coordinate_raises v round_ c_0 c_1 c_2 c_3 (rest : list Qc) :
  x0 ≠ x1 → y0 ≠ y1 → z0 ≠ z1 →
  CC.to_lb v c (c_0 :: c_1 :: c_2 :: c_3 :: rest) round_
    = Raise IndexError ∧
  CC.from_lb c (c_0 :: c_1 :: c_2 :: c_3 :: rest) = Raise ValueError.
Proof.
  intros Hwx Hwy Hwz.
  destruct built_converter as (a_x & a_y & a_z & Ha & _ & (Hx & Hy & Hz) & ->).
  by apply too_many_coordinates; [| apply width_cell_nonzero ..].
Qed.
End BuiltConverter.


Lemma axes_are_permuted_slots_witness :
  CC.__init__ shuffled_config = Ok shuffled_converter ∧
  ∃ a_x a_y a_z (lb_pos : list Qc),
    CC.axes shuffled_converter = [a_x; a_y; a_z] ∧
    CC.to_lb Py2 shuffled_converter [Q2Qc 0.5; 1; of_int 5] false
      = Ok lb_pos ∧
    length lb_pos = 3%nat ∧
    getitem lb_pos (2 - a_x)
      = Ok ((Q2Qc 0.5 - - (1)) / ((1 - - (1)) / of_int 7) - of_int 0) ∧
    getitem lb_pos (2 - a_y)
      = Ok ((1 - 0) / ((of_int 2 - 0) / of_int 10) - of_int (-2)) ∧
    getitem lb_pos (2 - a_z)
      = Ok ((of_int 5 - of_int 3) / ((of_int 7 - of_int 3) / of_int 11)
            - of_int 1) ∧
    ∀ (l : list Qc) l_x l_y l_z,
      length l = 3%nat →
      getitem l (2 - a_x) = Ok l_x →
      getitem l (2 - a_y) = Ok l_y →
      getitem l (2 - a_z) = Ok l_z →
      CC.from_lb shuffled_converter l =
        Ok [(1 - - (1)) / of_int 7 * (l_x + of_int 0) + - (1);
            (of_int 2 - 0) / of_int 10 * (l_y + of_int (-2)) + 0;
            (of_int 7 - of_int 3) / of_int 11 * (l_z + of_int 1) + of_int 3].
Proof.
  split; [exact init_shuffled |].
  apply (axes_are_permuted_slots shuffled_config (- (1)) 1 0 (of_int 2)
    (of_int 3) (of_int 7) 12 10 8 1 1 2 0 0 3
    (Some ((1, 0), (0, 2), (1, 1)))%Z shuffled_converter
    eq_refl eq_refl eq_refl eq_refl shuffled_axes_permutation init_shuffled
    Py2 (Q2Qc 0.5) 1 (of_int 5)); by_evaluation.
Defined.

Lemma bounding_box_corners_witness :
  CC.__init__ shuffled_config = Ok shuffled_converter ∧
  ∃ a_x a_y a_z (lower upper : list Z),
    CC.axes shuffled_converter = [a_x; a_y; a_z] ∧
    CC.to_lb Py3 shuffled_converter [- (1); 0; of_int 3] true = Ok lower ∧
    getitem lower (2 - a_x) = Ok 0%Z ∧
    getitem lower (2 - a_y) = Ok 2%Z ∧
    getitem lower (2 - a_z) = Ok (-1)%Z ∧
    CC.to_lb Py3 shuffled_converter [1; of_int 2; of_int 7] true = Ok upper ∧
    getitem upper (2 - a_x) = Ok 7%Z ∧
    getitem upper (2 - a_y) = Ok 12%Z ∧
    getitem upper (2 - a_z) = Ok 10%Z.
Proof.
  split; [exact init_shuffled |].
  apply (bounding_box_corners shuffled_config (- (1)) 1 0 (of_int 2)
    (of_int 3) (of_int 7) 12 10 8 1 1 2 0 0 3
    (Some ((1, 0), (0, 2), (1, 1)))%Z shuffled_converter
    eq_refl eq_refl eq_refl eq_refl shuffled_axes_permutation init_shuffled
    Py3); by_evaluation.
Defined.

Lemma snap_to_lattice_witness :
  CC.__init__ shuffled_config = Ok shuffled_converter ∧
  ∃ (lb_pos : list Z) e_x e_y e_z,
    CC.to_lb Py3 shuffled_converter [Q2Qc 0.5; 1; of_int 5] true
      = Ok lb_pos ∧
    CC.from_lb shuffled_converter (of_int <$> lb_pos) =
      Ok [Q2Qc 0.5 + (1 - - (1)) / of_int 7 * e_x;
          1 + (of_int 2 - 0) / of_int 10 * e_y;
          of_int 5 + (of_int 7 - of_int 3) / of_int 11 * e_z] ∧
    (- half <= e_x ∧ e_x <= half) ∧
    (- half <= e_y ∧ e_y <= half) ∧
    (- half <= e_z ∧ e_z <= half).
Proof.
  split; [exact init_shuffled |].
  apply (snap_to_lattice shuffled_config (- (1)) 1 0 (of_int 2)
    (of_int 3) (of_int 7) 12 10 8 1 1 2 0 0 3
    (Some ((1, 0), (0, 2), (1, 1)))%Z shuffled_converter
    eq_refl eq_refl eq_refl eq_refl shuffled_axes_permutation init_shuffled
    Py3 (Q2Qc 0.5) 1 (of_int 5)); by_evaluation.
Defined.

Lemma fourth_coordinate_raises_witness :
  CC.__init__ shuffled_config = Ok shuffled_converter ∧
  CC.to_lb Py3 shuffled_converter [0; 0; 0; 0] true = Raise IndexError ∧
  CC.from_lb shuffled_converter [0; 0; 0; 0] = Raise ValueError.
Proof.
  split; [exact init_shuffled |].
  apply (fourth_coordinate_raises shuffled_config (- (1)) 1 0 (of_int 2)
    (of_int 3) (of_int 7) 12 10 8 1 1 2 0 0 3
    (Some ((1, 0), (0, 2), (1, 1)))%Z shuffled_converter
    eq_refl eq_refl eq_refl eq_refl shuffled_axes_permutation init_shuffled
    Py3 true 0 0 0 0 []); by_evaluation.
Defined.


(** ** Construction and staging of a UnitConverter *)

(** X11.  A converter built from [Re] and two of the three physical
    parameters has that [Re], up to floating-point rounding: the derived
    parameter makes the [Re] property return the number given (exactly so
    in the exact arithmetic of the model), provided the given parameters
    are not zero (nor [Re], when the viscosity is the one derived). *)
Theorem init_reproduces_Re Re freq :
  (∀ length velocity,
     Re ≠ 0 → length ≠ 0 → velocity ≠ 0 →
     ∃ c, UC.__init__ None (Some length) (Some velocity) (Some Re) freq
            = Ok c ∧ UC.Re c = Ok Re) ∧
  (∀ visc velocity,
     visc ≠ 0 → velocity ≠ 0 →
     ∃ c, UC.__init__ (Some visc) None (Some velocity) (Some Re) freq
            = Ok c ∧ UC.Re c = Ok Re) ∧
  (∀ visc length,
     visc ≠ 0 → length ≠ 0 →
     ∃ c, UC.__init__ (Some visc) (Some length) None (Some Re) freq
            = Ok c ∧ UC.Re c = Ok Re).
Proof.
  split; [| split].
  - intros length velocity HRe Hlen Hvel. cbn.
    rewrite div_nonzero by done. cbn. eexists. split; [reflexivity |].
    unfold UC.Re. cbn.
    rewrite div_nonzero
      by (by apply quotient_nonzero; [apply product_nonzero |]).
    f_equal. by field.
  - intros visc velocity Hvisc Hvel. cbn.
    rewrite div_nonzero by done. cbn. eexists. split; [reflexivity |].
    unfold UC.Re. cbn. rewrite div_nonzero by done. f_equal. by field.
  - intros visc length Hvisc Hlen. cbn.
    rewrite div_nonzero by done. cbn. eexists. split; [reflexivity |].
    unfold UC.Re. cbn. rewrite div_nonzero by done. f_equal. by field.
Qed.

Lemma init_reproduces_Re_witness :
  ∃ c, UC.__init__ None (Some (of_int 3)) (Some (of_int 4))
         (Some (of_int 6)) None = Ok c ∧
       UC.Re c = Ok (of_int 6).
Proof.
  apply (proj1 (init_reproduces_Re (of_int 6) None)); by_evaluation.
Defined.

(** X12.  With [Re] given, construction needs at least two of the three
    physical parameters: with two or three of them missing it raises
    [TypeError].  Without [Re] nothing is derived and nothing can fail:
    the arguments are stored as they are. *)
Theorem init_needs_two_parameters (visc len vel freq : option Qc) :
  (∀ Re,
     (length (omap id [visc; len; vel]) <= 1)%nat →
     UC.__init__ visc len vel (Some Re) freq = Raise TypeError) ∧
  UC.__init__ visc len vel None freq =
    Ok {| UC._phys_visc := visc; UC._phys_len := len;
          UC._phys_vel := vel; UC._phys_freq := freq;
          UC._lb_visc := None; UC._lb_len := None; UC._lb_vel := None |}.
Proof.
  split; [| done].
  intros Re. destruct visc, len, vel; cbn; (lia || done).
Qed.

Lemma init_needs_two_parameters_witness :
  (base.length (omap id [None; Some (of_int 3); None (A := Qc)]) <= 1)%nat ∧
  UC.__init__ None (Some (of_int 3)) None (Some (of_int 6)) None
    = Raise TypeError.
Proof.
  split; [cbn; lia |].
  apply (proj1 (init_needs_two_parameters None (Some (of_int 3)) None None)).
  cbn. lia.
Defined.

Lemma assigned_assigned v1 l1 u1 v2 l2 u2 self :
  UC.assigned v2 l2 u2 (UC.assigned v1 l1 u1 self) =
  UC.assigned (from_option Some v1 v2) (from_option Some l1 l2)
    (from_option Some u1 u2) self.
Proof. by destruct v2, l2, u2. Qed.

(** X13.  Lattice parameters can be supplied in stages: after a call that
    leaves fewer than two lattice attributes set (and so returns
    normally, deriving nothing), a second call behaves as one call with
    the arguments of both, those of the second taking precedence. *)
Theorem set_lb_staged v1 l1 u1 v2 l2 u2 self :
  (UC.lb_set_count (UC.assigned v1 l1 u1 self) < 2)%nat →
  (UC.set_lb v1 l1 u1 self).2 = Ok () ∧
  UC.set_lb v2 l2 u2 (UC.set_lb v1 l1 u1 self).1 =
    UC.set_lb (from_option Some v1 v2) (from_option Some l1 l2)
      (from_option Some u1 u2) self.
Proof.
  intros Hcount. rewrite !set_lb_assigned.
  rewrite (update_nothing (UC.assigned v1 l1 u1 self)) by auto.
  split; [done |]. cbn. by rewrite assigned_assigned.
Qed.

Lemma set_lb_staged_witness :
  (UC.lb_set_count (UC.assigned (Some (Q2Qc 0.1)) None None pipe_converter)
     < 2)%nat ∧
  UC.set_lb None (Some (of_int 10)) None
    (UC.set_lb (Some (Q2Qc 0.1)) None None pipe_converter).1 =
  UC.set_lb (Some (Q2Qc 0.1)) (Some (of_int 10)) None pipe_converter.
Proof.
  split; [cbn; lia |].
  apply (set_lb_staged (Some (Q2Qc 0.1)) None None None (Some (of_int 10))
           None pipe_converter).
  cbn. lia.
Defined.

(** X14.  Once all three lattice attributes are set, [set_lb] only assigns: it
    never derives an attribute again and never raises, so an attribute
    derived earlier keeps its value when another one is changed. *)
Theorem set_lb_never_rederives visc length velocity self :
  UC.lb_set_count self = 3%nat →
  UC.set_lb visc length velocity self =
    (UC.assigned visc length velocity self, Ok ()) ∧
  UC.lb_set_count (UC.assigned visc length velocity self) = 3%nat.
Proof.
  intros Hcount.
  assert (UC.lb_set_count (UC.assigned visc length velocity self) = 3%nat)
    as Hcount'.
  { unfold UC.lb_set_count in *. cbn.
    destruct (UC._lb_visc self), (UC._lb_len self), (UC._lb_vel self);
      try discriminate Hcount.
    by destruct visc, length, velocity. }
  split; [| done].
  rewrite set_lb_assigned. by rewrite update_nothing by auto.
Qed.

Lemma set_lb_never_rederives_witness :
  UC.lb_set_count pulsatile_converter = 3%nat ∧
  UC.set_lb None (Some (of_int 20)) None pulsatile_converter =
    (UC.assigned None (Some (of_int 20)) None pulsatile_converter, Ok ()).
Proof.
  split; [reflexivity |].
  by apply (set_lb_never_rederives None (Some (of_int 20)) None
              pulsatile_converter).
Defined.

(** X15.  A failed stability check is not undone: the call that raises
    [AssertionError] leaves the derived viscosity, above [1/6], in the
    object, and a following [set_lb()] returns normally with it. *)
Theorem failed_check_is_kept visc length velocity self len vel Re :
  let s1 := UC.assigned visc length velocity self in
  let s2 := (UC.set_lb visc length velocity self).1 in
  UC._lb_visc s1 = None → UC._lb_len s1 = Some len →
  UC._lb_vel s1 = Some vel →
  UC.Re s1 = Ok Re → Re ≠ 0 →
  UC.max_lb_visc < len * vel / Re →
  (UC.set_lb visc length velocity self).2 = Raise AssertionError ∧
  UC._lb_visc s2 = Some (len * vel / Re) ∧
  UC.set_lb None None None s2 = (s2, Ok ()).
Proof.
  intros s1 s2 Hvisc Hlen Hvel HRe HRe0 Hbig. subst s2.
  rewrite (set_lb_assigned visc). fold s1. clearbody s1.
  rewrite (update_derive_visc s1 len vel) by done.
  rewrite HRe, div_nonzero by done.
  rewrite bool_decide_eq_false_2 by (by apply Qclt_not_le).
  cbn [fst snd].
  split; [done |]. split; [done |].
  rewrite set_lb_assigned. rewrite update_nothing.
  - reflexivity.
  - right. unfold UC.lb_set_count. cbn. by rewrite Hlen, Hvel.
Qed.

Lemma failed_check_is_kept_witness :
  UC.max_lb_visc < of_int 10 * 1 / of_int 6 ∧
  (UC.set_lb None (Some (of_int 10)) (Some 1) pipe_converter).2
    = Raise AssertionError ∧
  UC._lb_visc (UC.set_lb None (Some (of_int 10)) (Some 1) pipe_converter).1
    = Some (of_int 10 * 1 / of_int 6) ∧
  UC.set_lb None None None
    (UC.set_lb None (Some (of_int 10)) (Some 1) pipe_converter).1
    = ((UC.set_lb None (Some (of_int 10)) (Some 1) pipe_converter).1, Ok ()).
Proof.
  split; [by_evaluation |].
  apply (failed_check_is_kept None (Some (of_int 10)) (Some 1)
           pipe_converter (of_int 10) 1 (of_int 6));
    (reflexivity || by_evaluation).
Defined.


(** ** Lattice steps and similarity numbers *)



(** X17.  When the lattice and physical Reynolds numbers agree, the
    reference velocity scales with the steps, up to floating-point
    rounding: whenever [Re] and [Re_lb] return the same number and [dx]
    and [dt] return, [phys_vel * dt] is [lb_vel * dx] (exactly so in the
    exact arithmetic of the model). *)
Theorem velocity_scaling self Re dx dt vel lb_vel :
  UC.Re self = Ok Re → UC.Re_lb self = Ok Re →
  UC.dx self = Ok dx → UC.dt self = Ok dt →
  UC._phys_vel self = Some vel → UC._lb_vel self = Some lb_vel →
  vel * dt = lb_vel * dx.
Proof.
  unfold UC.Re, UC.Re_lb, UC.dt, UC.dx.
  intros HRe HRelb Hdx Hdt Hvel Hlbvel. rewrite Hvel, Hlbvel in *.
  destruct (UC._phys_len self) as [len |]; [| done].
  destruct (UC._phys_visc self) as [visc |]; [| done].
  destruct (UC._lb_len self) as [lb_len |]; [| done].
  destruct (UC._lb_visc self) as [lb_visc |]; [| done].
  cbn in *. apply div_Ok in HRe as [Hvisc0 HRe], HRelb as [Hlbvisc0 HRelb].
  apply div_Ok in Hdx as [Hlblen0 ->].
  rewrite !div_nonzero in Hdt by done. cbn in Hdt. injection Hdt as <-.
  assert (lb_vel = Re * lb_visc / lb_len) as ->
    by (rewrite HRelb; by field).
  rewrite HRe. by field.
Qed.

Lemma velocity_scaling_witness :
  UC.Re pulsatile_converter = Ok (of_int 6) ∧
  UC.Re_lb pulsatile_converter = Ok (of_int 6) ∧
  UC.dx pulsatile_converter = Ok (Q2Qc 0.3) ∧
  UC.dt pulsatile_converter = Ok (Q2Qc 0.0045) ∧
  of_int 4 * Q2Qc 0.0045 = Q2Qc 0.06 * Q2Qc 0.3.
Proof.
  assert (UC.Re pulsatile_converter = Ok (of_int 6)) as HRe
    by by_evaluation.
  assert (UC.Re_lb pulsatile_converter = Ok (of_int 6)) as HRelb
    by by_evaluation.
  assert (UC.dx pulsatile_converter = Ok (Q2Qc 0.3)) as Hdx
    by by_evaluation.
  assert (UC.dt pulsatile_converter = Ok (Q2Qc 0.0045)) as Hdt
    by by_evaluation.
  do 4 (split; [done |]).
  exact (velocity_scaling pulsatile_converter _ _ _ _ _ HRe HRelb Hdx Hdt
           eq_refl eq_refl).
Defined.

(** X18.  The conversion keeps the Womersley number, up to floating-point
    rounding: with the frequency, the lengths and the viscosities set,
    the lattice viscosity not zero and [freq_lb] returning, [Womersley_lb]
    evaluates [math.sqrt] on the same number as [Womersley] (exactly the
    same in the exact arithmetic of the model, whatever [math.sqrt] is);
    that number is [2*pi*freq*length^2/visc].  Without a physical
    frequency [Womersley] raises [TypeError]. *)
Theorem Womersley_is_kept math_sqrt self :
  (∀ freq visc len lb_visc lb_len freq_lb,
     UC._phys_freq self = Some freq →
     UC._phys_visc self = Some visc → UC._phys_len self = Some len →
     UC._lb_visc self = Some lb_visc → UC._lb_len self = Some lb_len →
     lb_visc ≠ 0 →
     UC.freq_lb self = Ok freq_lb →
     Womersley_lb math_sqrt self = Womersley math_sqrt self ∧
     Womersley math_sqrt self =
       math_sqrt (of_int 2 * math_pi * freq * len ^ 2 / visc)) ∧
  (UC._phys_freq self = None →
   Womersley math_sqrt self = Raise TypeError).
Proof.
  split.
  - intros freq visc len lb_visc lb_len freq_lb Hfreq Hvisc Hlen Hlbvisc
      Hlblen Hlbvisc0.
    unfold Womersley_lb, Womersley, UC.freq_lb, UC.dt, UC.dx,
      UC.len_lb, UC.visc_lb.
    rewrite Hfreq, Hvisc, Hlen, Hlbvisc, Hlblen. cbn.
    destruct (div lb_visc visc) as [r |] eqn:Hr; [| done].
    apply div_Ok in Hr as [Hvisc0 ->]. cbn.
    destruct (div len lb_len) as [dx |] eqn:Hdx; [| done].
    apply div_Ok in Hdx as [Hlblen0 ->]. cbn. intros _.
    rewrite !div_nonzero by done. cbn.
    split; [| done]. f_equal. cbn [Qcpower]. by field.
  - intros Hfreq. unfold Womersley. by rewrite Hfreq.
Qed.

Lemma Womersley_is_kept_witness :
  UC.freq_lb pulsatile_converter = Ok (Q2Qc 0.0225) ∧
  Womersley_lb Ok pulsatile_converter = Womersley Ok pulsatile_converter.
Proof.
  assert (UC.freq_lb pulsatile_converter = Ok (Q2Qc 0.0225)) as Hfreq
    by by_evaluation.
  split; [exact Hfreq |].
  apply (proj1 (Womersley_is_kept Ok pulsatile_converter) (of_int 5)
           (of_int 2) (of_int 3) (Q2Qc 0.1) (of_int 10) (Q2Qc 0.0225)
           eq_refl eq_refl eq_refl eq_refl eq_refl);
    [by_evaluation | exact Hfreq].
Defined.
